(** * PluginState: the plugin-state demonstration plugin

    A shallow embedding of the TypeScript sources of the plugin:

    - [src/types.ts]: the service contracts, in particular the
      [PluginStateService] interface (module [Iface]);
    - [src/PluginStateTest.tsx]: the React class component
      [PluginStateTest], called the Consumer (module [Consumer]);
    - the state store behind [PluginStateService], which the host
      application implements and this repository only declares and calls
      (module [StateStore], written from the specification).

    Conventions of the embedding.

    - A JavaScript [number] is the integer it holds, a [Z]; the component
      only ever adds 1 to a number or subtracts 1 from it, and [plus_1]
      and [minus_1] round the result as IEEE 754 doubles do, so that
      above 2^53 the model loses precision where the code does. Numbers
      that are not integers ([NaN], infinities, fractions) are outside
      the model.
    - A JavaScript string is a [string], one character for one UTF-16
      code unit; a statement that depends on the length of a text is
      made for texts of ASCII characters, for which the two agree.
    - A value of TypeScript type [any] that crosses the service boundary
      is read at the type the component declares for the place it is
      stored in; a property that may be absent is an [option].
    - [this.setState] is applied at once.
    - A method behind one of the three buttons, and [componentDidMount],
      runs to its end without another method of the component
      interleaving at its [await]: the buttons are disabled while one of
      them runs. The auto-save of a form change is not awaited, and is
      modelled in its two halves: [saveState_started] runs inside the
      handler, [saveState_resumed] whenever the promise settles, with
      anything in between.
    - The host keeps the service contracts: outside [configure], which
      may throw, a service method returns, and a promise settles. *)

From Stdlib Require Import ZArith List String Bool Lia.
From stdpp Require Import base option list strings pretty gmap fin_maps.

Set Warnings "-clear-no-such-hyp".

Open Scope Z_scope.

(* ===================================================================== *)
(** * Values and configuration objects shared by both sides              *)
(* ===================================================================== *)

(** JSON-like values: what a state field or a schema default can hold. *)
#[warnings="-register-all"]
Inductive value :=
| VNum (z : Z)
| VStr (s : string)
| VBool (b : bool)
| VObj (props : list (string * value)).

(** [typeof v], as the schema's [type] strings name it. *)
Definition type_of (v : value) : string :=
  match v with
  | VNum _ => "number"
  | VStr _ => "string"
  | VBool _ => "boolean"
  | VObj _ => "object"
  end.

(** One entry of [stateSchema]: [{ type, required, default }]. *)
Record FieldSchema := {
  f_type : string;
  f_required : bool;
  f_default : value
}.

(** The object handed to [configure]. *)
Record Config := {
  pluginId : string;
  stateStrategy : string;
  preserveKeys : list string;
  stateSchema : gmap string FieldSchema;
  maxStateSize : Z
}.

(* ===================================================================== *)
(** * src/types.ts: the PluginStateService interface                      *)
(* ===================================================================== *)

Module Iface.

(** The fragment of TypeScript's types the service contracts use. *)
#[warnings="-register-all"]
Inductive ts_type :=
| TsAny
| TsVoid
| TsBoolean
| TsString
| TsPromise (t : ts_type)
| TsFun (params : list ts_type) (ret : ts_type).

(** [interface PluginStateService], member by member (types.ts 45-56). *)
Definition PluginStateService : list (string * ts_type) :=
  [ ("configure",        TsFun [TsAny] TsVoid);
    ("getConfiguration", TsFun [] TsAny);
    ("saveState",        TsFun [TsAny] (TsPromise TsVoid));
    ("getState",         TsFun [] (TsPromise TsAny));
    ("clearState",       TsFun [] (TsPromise TsVoid));
    ("validateState",    TsFun [TsAny] TsBoolean);
    ("sanitizeState",    TsFun [TsAny] TsAny);
    ("onSave",           TsFun [TsFun [TsAny] TsVoid] (TsFun [] TsVoid));
    ("onRestore",        TsFun [TsFun [TsAny] TsVoid] (TsFun [] TsVoid));
    ("onClear",          TsFun [TsFun [] TsVoid] (TsFun [] TsVoid)) ].

(** The declared type of member [name], if the interface has it. *)
Fixpoint member (name : string) (decl : list (string * ts_type)) : option ts_type :=
  match decl with
  | [] => None
  | (n, t) :: rest => if String.eqb n name then Some t else member name rest
  end.

(** A method that takes exactly [arity] arguments and returns [void]. *)
Definition returns_void (arity : nat) (t : ts_type) : bool :=
  match t with
  | TsFun ps TsVoid => Nat.eqb (length ps) arity
  | _ => false
  end.

(** A method whose result is a promise (a completion to be awaited). *)
Definition returns_promise (t : ts_type) : bool :=
  match t with
  | TsFun _ (TsPromise _) => true
  | _ => false
  end.

(** The unsubscribe capability: [() => void]. *)
Definition unsubscribe_type : ts_type := TsFun [] TsVoid.

(** A registrar: takes one callback (a function returning [void]) and
    returns an unsubscribe function. *)
Definition is_registrar (t : ts_type) : bool :=
  match t with
  | TsFun [TsFun _ TsVoid] (TsFun [] TsVoid) => true
  | _ => false
  end.

End Iface.

(* ===================================================================== *)
(** * src/PluginStateTest.tsx: the Consumer                               *)
(* ===================================================================== *)

Module Consumer.

(** ** Numbers *)

(** The double nearest to the integer [z], ties going to the even
    significand (IEEE 754 round-to-nearest-even, 53 bits of significand):
    what a JavaScript [number] holds of an integer result. *)
Definition to_double (z : Z) : Z :=
  let m := Z.abs z in
  if m <? 2 ^ 53 then z
  else
    let e := Z.log2 m - 52 in
    let q := m / 2 ^ e in
    let r := m mod 2 ^ e in
    let half := 2 ^ (e - 1) in
    let q' := if r <? half then q
              else if half <? r then q + 1
              else if Z.even q then q else q + 1 in
    Z.sgn z * (q' * 2 ^ e).

(** [n + 1] and [n - 1] on numbers. *)
Definition plus_1 (n : Z) : Z := to_double (n + 1).
Definition minus_1 (n : Z) : Z := to_double (n - 1).

(** [Number.isSafeInteger(n)]: [n] is between [-(2^53 - 1)] and
    [2^53 - 1]. *)
Definition isSafeInteger (n : Z) : bool := Z.abs n <=? 2 ^ 53 - 1.

Arguments to_double : simpl never.
Arguments plus_1 : simpl never.
Arguments minus_1 : simpl never.
Arguments isSafeInteger : simpl never.

(** ** Data of the component *)

(** [interface TestData]. *)
Record TestData := {
  counter : Z;
  textInput : string;
  checkboxValue : bool;
  selectValue : string;
  timestamp : string
}.

(** [Partial<TestData>]: every property optional. *)
Record PartialTestData := {
  u_counter : option Z;
  u_textInput : option string;
  u_checkboxValue : option bool;
  u_selectValue : option string;
  u_timestamp : option string
}.

Definition no_updates : PartialTestData :=
  {| u_counter := None; u_textInput := None; u_checkboxValue := None;
     u_selectValue := None; u_timestamp := None |}.

(** The object spread [{ ...prev, ...updates }]. *)
Definition spread (prev : TestData) (updates : PartialTestData) : TestData :=
  {| counter := default (counter prev) (u_counter updates);
     textInput := default (textInput prev) (u_textInput updates);
     checkboxValue := default (checkboxValue prev) (u_checkboxValue updates);
     selectValue := default (selectValue prev) (u_selectValue updates);
     timestamp := default (timestamp prev) (u_timestamp updates) |}.

(** [{ ...td, timestamp: t }]. *)
Definition with_timestamp (t : string) (td : TestData) : TestData :=
  {| counter := counter td; textInput := textInput td;
     checkboxValue := checkboxValue td; selectValue := selectValue td;
     timestamp := t |}.

(** The literal [{ counter: 0, textInput: '', checkboxValue: false,
    selectValue: 'option1', timestamp: new Date().toISOString() }], which
    the constructor, [configurePluginState] and [clearState] all write. *)
Definition default_testData (now_iso : string) : TestData :=
  {| counter := 0; textInput := ""; checkboxValue := false;
     selectValue := "option1"; timestamp := now_iso |}.

(** [interface PluginStateTestState]. *)
Record PluginStateTestState := {
  testData : TestData;
  isLoading : bool;
  error : string;
  currentTheme : string;
  isInitializing : bool;
  isStateConfigured : bool;
  lastSaveTime : option string;
  lastRestoreTime : option string;
  saveCount : Z;
  restoreCount : Z;
  debugLogs : list string
}.

(** The state the constructor builds. *)
Definition initial_state (now_iso : string) : PluginStateTestState :=
  {| testData := default_testData now_iso;
     isLoading := false; error := ""; currentTheme := "light";
     isInitializing := true; isStateConfigured := false;
     lastSaveTime := None; lastRestoreTime := None;
     saveCount := 0; restoreCount := 0; debugLogs := [] |}.

(** Property updates, the building blocks of the objects given to
    [setState]. *)
Definition set_testData (x : TestData) (s : PluginStateTestState) :=
  {| testData := x; isLoading := isLoading s; error := error s;
     currentTheme := currentTheme s; isInitializing := isInitializing s;
     isStateConfigured := isStateConfigured s; lastSaveTime := lastSaveTime s;
     lastRestoreTime := lastRestoreTime s; saveCount := saveCount s;
     restoreCount := restoreCount s; debugLogs := debugLogs s |}.
Definition set_isLoading (x : bool) (s : PluginStateTestState) :=
  {| testData := testData s; isLoading := x; error := error s;
     currentTheme := currentTheme s; isInitializing := isInitializing s;
     isStateConfigured := isStateConfigured s; lastSaveTime := lastSaveTime s;
     lastRestoreTime := lastRestoreTime s; saveCount := saveCount s;
     restoreCount := restoreCount s; debugLogs := debugLogs s |}.
Definition set_error (x : string) (s : PluginStateTestState) :=
  {| testData := testData s; isLoading := isLoading s; error := x;
     currentTheme := currentTheme s; isInitializing := isInitializing s;
     isStateConfigured := isStateConfigured s; lastSaveTime := lastSaveTime s;
     lastRestoreTime := lastRestoreTime s; saveCount := saveCount s;
     restoreCount := restoreCount s; debugLogs := debugLogs s |}.
Definition set_currentTheme (x : string) (s : PluginStateTestState) :=
  {| testData := testData s; isLoading := isLoading s; error := error s;
     currentTheme := x; isInitializing := isInitializing s;
     isStateConfigured := isStateConfigured s; lastSaveTime := lastSaveTime s;
     lastRestoreTime := lastRestoreTime s; saveCount := saveCount s;
     restoreCount := restoreCount s; debugLogs := debugLogs s |}.
Definition set_isInitializing (x : bool) (s : PluginStateTestState) :=
  {| testData := testData s; isLoading := isLoading s; error := error s;
     currentTheme := currentTheme s; isInitializing := x;
     isStateConfigured := isStateConfigured s; lastSaveTime := lastSaveTime s;
     lastRestoreTime := lastRestoreTime s; saveCount := saveCount s;
     restoreCount := restoreCount s; debugLogs := debugLogs s |}.
Definition set_isStateConfigured (x : bool) (s : PluginStateTestState) :=
  {| testData := testData s; isLoading := isLoading s; error := error s;
     currentTheme := currentTheme s; isInitializing := isInitializing s;
     isStateConfigured := x; lastSaveTime := lastSaveTime s;
     lastRestoreTime := lastRestoreTime s; saveCount := saveCount s;
     restoreCount := restoreCount s; debugLogs := debugLogs s |}.
Definition set_lastSaveTime (x : option string) (s : PluginStateTestState) :=
  {| testData := testData s; isLoading := isLoading s; error := error s;
     currentTheme := currentTheme s; isInitializing := isInitializing s;
     isStateConfigured := isStateConfigured s; lastSaveTime := x;
     lastRestoreTime := lastRestoreTime s; saveCount := saveCount s;
     restoreCount := restoreCount s; debugLogs := debugLogs s |}.
Definition set_lastRestoreTime (x : option string) (s : PluginStateTestState) :=
  {| testData := testData s; isLoading := isLoading s; error := error s;
     currentTheme := currentTheme s; isInitializing := isInitializing s;
     isStateConfigured := isStateConfigured s; lastSaveTime := lastSaveTime s;
     lastRestoreTime := x; saveCount := saveCount s;
     restoreCount := restoreCount s; debugLogs := debugLogs s |}.
Definition set_saveCount (x : Z) (s : PluginStateTestState) :=
  {| testData := testData s; isLoading := isLoading s; error := error s;
     currentTheme := currentTheme s; isInitializing := isInitializing s;
     isStateConfigured := isStateConfigured s; lastSaveTime := lastSaveTime s;
     lastRestoreTime := lastRestoreTime s; saveCount := x;
     restoreCount := restoreCount s; debugLogs := debugLogs s |}.
Definition set_restoreCount (x : Z) (s : PluginStateTestState) :=
  {| testData := testData s; isLoading := isLoading s; error := error s;
     currentTheme := currentTheme s; isInitializing := isInitializing s;
     isStateConfigured := isStateConfigured s; lastSaveTime := lastSaveTime s;
     lastRestoreTime := lastRestoreTime s; saveCount := saveCount s;
     restoreCount := x; debugLogs := debugLogs s |}.
Definition set_debugLogs (x : list string) (s : PluginStateTestState) :=
  {| testData := testData s; isLoading := isLoading s; error := error s;
     currentTheme := currentTheme s; isInitializing := isInitializing s;
     isStateConfigured := isStateConfigured s; lastSaveTime := lastSaveTime s;
     lastRestoreTime := lastRestoreTime s; saveCount := saveCount s;
     restoreCount := restoreCount s; debugLogs := x |}.

(** ** The objects exchanged with the plugin-state service *)

(** An object with the optional properties [testData], [saveCount] and
    [restoreCount]: the shape of [stateToSave], and the shape at which
    [restoreState] reads what [getState] resolves with. *)
Record StateObject := {
  o_testData : option TestData;
  o_saveCount : option Z;
  o_restoreCount : option Z
}.

(** The own property names of a [StateObject], in insertion order. *)
Definition keys (o : StateObject) : list string :=
  (if o_testData o is Some _ then ["testData"] else []) ++
  (if o_saveCount o is Some _ then ["saveCount"] else []) ++
  (if o_restoreCount o is Some _ then ["restoreCount"] else []).

(** A [TestData] as a plain object value. *)
Definition TestData_value (td : TestData) : value :=
  VObj [ ("counter", VNum (counter td));
         ("textInput", VStr (textInput td));
         ("checkboxValue", VBool (checkboxValue td));
         ("selectValue", VStr (selectValue td));
         ("timestamp", VStr (timestamp td)) ].

(** A [StateObject] as the field-to-value mapping the store works on. *)
Definition to_snapshot (o : StateObject) : gmap string value :=
  list_to_map
    (omap id [ (λ td, ("testData", TestData_value td)) <$> o_testData o;
               (λ n, ("saveCount", VNum n)) <$> o_saveCount o;
               (λ n, ("restoreCount", VNum n)) <$> o_restoreCount o ]).

(** The argument of [services.pluginState.configure(...)]
    (PluginStateTest.tsx, configurePluginState). *)
Definition consumer_config (now_iso : string) : Config :=
  {| pluginId := "PluginState";
     stateStrategy := "session";
     preserveKeys := ["testData"; "saveCount"; "restoreCount"];
     stateSchema :=
       {[ "testData" :=
            {| f_type := "object"; f_required := false;
               f_default := TestData_value (default_testData now_iso) |};
          "saveCount" :=
            {| f_type := "number"; f_required := false; f_default := VNum 0 |};
          "restoreCount" :=
            {| f_type := "number"; f_required := false; f_default := VNum 0 |} ]};
     maxStateSize := 10240 |}.

(** ** The host, as the component sees it *)

(** The five closures the component hands to the host. *)
Inductive Callback :=
| ThemeChangeListener
| PageContextListener
| SaveHook
| RestoreHook
| ClearHook.

(** An unsubscribe function returned by the host, known by its identity. *)
Definition Unsub := nat.

(** One call of a closure by the host with an argument the closure can
    print, given as the text it prints: the theme, [context.pageId], or
    [JSON.stringify(state)]. *)
Record Invocation := { inv_callback : Callback; inv_arg : string }.

(** The three closures whose parameter has type [any] and that read
    through it before anything else: the save hook and the restore hook
    ([JSON.stringify(state).substring(0, 100)]) and the page-context
    listener ([context.pageId]). *)
Inductive Reader :=
| SaveHookReads
| RestoreHookReads
| PageContextListenerReads.

Definition reader_callback (r : Reader) : Callback :=
  match r with
  | SaveHookReads => SaveHook
  | RestoreHookReads => RestoreHook
  | PageContextListenerReads => PageContextListener
  end.

(** How a synchronous call ends. *)
Inductive Res (A : Type) :=
| Val (a : A)
| Thrown (e : string).
Arguments Val {A} a.
Arguments Thrown {A} e.

(** How a promise settles. *)
Inductive Settled (A : Type) :=
| Resolved (a : A)
| Rejected (e : string).
Arguments Resolved {A} a.
Arguments Rejected {A} e.

(** What the component observes of an awaited service call: the closures
    the host ran meanwhile, and the way the promise settled. *)
Record Answer (A : Type) := {
  dispatched : list Invocation;
  settled : Settled A
}.
Arguments dispatched {A} a.
Arguments settled {A} a.

(** The behaviour of the host services over a host state [H]. The
    plugin-state members follow [interface PluginStateService]; the clock
    stands for [new Date()]. This is a host that keeps the contracts:
    [configure] may throw, every other method returns, and the promise of
    an awaited call settles. *)
Record HostOps (H : Type) := {
  h_toISOString : H → string * H;
  h_toLocaleTimeString : H → string * H;
  h_getCurrentTheme : H → string * H;
  h_addThemeChangeListener : Callback → H → H;
  h_removeThemeChangeListener : Callback → H → H;
  h_onPageContextChange : Callback → H → Unsub * H;
  h_configure : Config → H → Res unit * H;
  h_saveState : StateObject → H → Answer unit * H;
  h_getState : H → Answer (option StateObject) * H;
  h_clearState : H → Answer unit * H;
  h_onSave : Callback → H → Unsub * H;
  h_onRestore : Callback → H → Unsub * H;
  h_onClear : Callback → H → Unsub * H;
  h_unsubscribe : Unsub → H → H
}.
Arguments h_toISOString {H} h.
Arguments h_toLocaleTimeString {H} h.
Arguments h_getCurrentTheme {H} h.
Arguments h_addThemeChangeListener {H} h.
Arguments h_removeThemeChangeListener {H} h.
Arguments h_onPageContextChange {H} h.
Arguments h_configure {H} h.
Arguments h_saveState {H} h.
Arguments h_getState {H} h.
Arguments h_clearState {H} h.
Arguments h_onSave {H} h.
Arguments h_onRestore {H} h.
Arguments h_onClear {H} h.
Arguments h_unsubscribe {H} h.

(** [props.services]: which of the optional services are present. *)
Record Services := {
  theme : bool;
  pageContext : bool;
  pluginState : bool
}.

(** The calls the component makes on the host services, as a trace. *)
Inductive HostCall :=
| GetCurrentTheme
| AddThemeChangeListener (cb : Callback)
| RemoveThemeChangeListener (cb : Callback)
| OnPageContextChange (cb : Callback)
| Configure (c : Config)
| OnSave (cb : Callback)
| OnRestore (cb : Callback)
| OnClear (cb : Callback)
| SaveState (o : StateObject)
| GetState
| ClearState
| Unsubscribe (u : Unsub).

(** The private fields of the class. *)
Record Fields := {
  themeChangeListener : option Callback;
  pageContextUnsubscribe : option Unsub;
  saveStateUnsubscribe : option Unsub;
  restoreStateUnsubscribe : option Unsub;
  clearStateUnsubscribe : option Unsub
}.

Definition initial_fields : Fields :=
  {| themeChangeListener := None; pageContextUnsubscribe := None;
     saveStateUnsubscribe := None; restoreStateUnsubscribe := None;
     clearStateUnsubscribe := None |}.

(** The component instance together with the host it runs in. *)
Record World (H : Type) := {
  this_state : PluginStateTestState;
  this_fields : Fields;
  host : H;
  calls : list HostCall
}.
Arguments this_state {H} w.
Arguments this_fields {H} w.
Arguments host {H} w.
Arguments calls {H} w.

(** ** The monad of component methods: state, and exceptions as values *)

Definition M (H A : Type) : Type := World H → Res A * World H.

Definition ret {H A} (a : A) : M H A := λ w, (Val a, w).

Definition bind {H A B} (m : M H A) (k : A → M H B) : M H B :=
  λ w, match m w with
       | (Val a, w') => k a w'
       | (Thrown e, w') => (Thrown e, w')
       end.

#[global] Instance M_ret {H} : MRet (M H) := λ A, @ret H A.
#[global] Instance M_bind {H} : MBind (M H) := λ A B k m, @bind H A B m k.

(** [throw e]. *)
Definition throw {H A} (e : string) : M H A := λ w, (Thrown e, w).

(** [try { m } catch (error) { handler error }]. *)
Definition try_catch {H A} (m : M H A) (handler : string → M H A) : M H A :=
  λ w, match m w with
       | (Val a, w') => (Val a, w')
       | (Thrown e, w') => handler e w'
       end.

(** [if (c) { m }]. *)
Definition when {H} (c : bool) (m : M H unit) : M H unit :=
  if c then m else ret tt.

(** [this.state]. *)
Definition read_state {H} : M H PluginStateTestState :=
  λ w, (Val (this_state w), w).

(** [this.setState(f)], with [f] the update as a function of the previous
    state; [this.setState({ k: v })] is [setState (set_k v)]. *)
Definition setState {H} (f : PluginStateTestState → PluginStateTestState) : M H unit :=
  λ w, (Val tt, {| this_state := f (this_state w); this_fields := this_fields w;
                   host := host w; calls := calls w |}).

Definition read_fields {H} : M H Fields :=
  λ w, (Val (this_fields w), w).

Definition write_fields {H} (f : Fields → Fields) : M H unit :=
  λ w, (Val tt, {| this_state := this_state w; this_fields := f (this_fields w);
                   host := host w; calls := calls w |}).

(** A call into the host that is not part of the service contracts. *)
Definition ask {H A} (op : H → A * H) : M H A :=
  λ w, let '(a, h) := op (host w) in
       (Val a, {| this_state := this_state w; this_fields := this_fields w;
                  host := h; calls := calls w |}).

(** A synchronous call of a service method; the trace records it. *)
Definition call {H A} (c : HostCall) (op : H → A * H) : M H A :=
  λ w, let '(a, h) := op (host w) in
       (Val a, {| this_state := this_state w; this_fields := this_fields w;
                  host := h; calls := calls w ++ [c] |}).

(** The same for a method that may throw. *)
Definition call_throwing {H A} (c : HostCall) (op : H → Res A * H) : M H A :=
  λ w, let '(r, h) := op (host w) in
       (r, {| this_state := this_state w; this_fields := this_fields w;
              host := h; calls := calls w ++ [c] |}).

(** [xs.slice(-n)]: the last [n] elements, all of them if there are fewer. *)
Definition slice_last {A} (n : nat) (xs : list A) : list A :=
  drop (length xs - n) xs.

(** The template literal [`[${timestamp}] ${message}`]. *)
Definition logEntry (timestamp message : string) : string :=
  "[" +:+ timestamp +:+ "] " +:+ message.

(** ** The methods of [class PluginStateTest] *)

Section Methods.
Context {H : Type} (ops : HostOps H) (services : Services).

(** [new Date().toISOString()] and [new Date().toLocaleTimeString()]. *)
Definition now_iso : M H string := ask (h_toISOString ops).
Definition now_local : M H string := ask (h_toLocaleTimeString ops).

(** [private addDebugLog(message)]. *)
Definition addDebugLog (message : string) : M H unit :=
  timestamp ← now_local;
  setState (λ prevState,
    set_debugLogs
      (slice_last 19 (debugLogs prevState) ++ [logEntry timestamp message])
      prevState).

(** The bodies of the closures given to the host. *)
Definition invoke (i : Invocation) : M H unit :=
  match inv_callback i with
  | ThemeChangeListener =>
      setState (set_currentTheme (inv_arg i));;
      addDebugLog ("Theme changed to: " +:+ inv_arg i)
  | PageContextListener =>
      addDebugLog ("Page context changed: " +:+ inv_arg i)
  | SaveHook =>
      addDebugLog ("State saved: " +:+ substring 0 100 (inv_arg i) +:+ "...")
  | RestoreHook =>
      addDebugLog ("State restored: " +:+ substring 0 100 (inv_arg i) +:+ "...")
  | ClearHook =>
      addDebugLog "State cleared"
  end.

Fixpoint invoke_all (invs : list Invocation) : M H unit :=
  match invs with
  | [] => mret tt
  | i :: rest => invoke i;; invoke_all rest
  end.

(** A call of one of the reading closures with a state that has no JSON
    text ([undefined], of which [JSON.stringify] is [undefined], or a
    state on which [JSON.stringify] throws) or with [null] or
    [undefined] for the context: the argument of [addDebugLog] cannot be
    built, a [TypeError] is thrown, and [addDebugLog] is not reached. *)
Definition invoke_undefined (r : Reader) : M H unit :=
  match r with
  | SaveHookReads | RestoreHookReads =>
      throw "TypeError: Cannot read properties of undefined (reading 'substring')"
  | PageContextListenerReads =>
      throw "TypeError: Cannot read properties of undefined (reading 'pageId')"
  end.

(** [await services.pluginState.m(...)]: the call is made, the host runs
    the closures it dispatches, and the method resumes with the value the
    promise resolved with, or with the rejection thrown. *)
Definition await {A} (c : HostCall) (op : H → Answer A * H) : M H A :=
  answer ← call c op;
  invoke_all (dispatched answer);;
  match settled answer with
  | Resolved a => mret a
  | Rejected e => throw e
  end.

(** [private async initializeServices()]. *)
Definition initializeServices : M H unit :=
  when (theme services) (
    currentTheme ← call GetCurrentTheme (h_getCurrentTheme ops);
    setState (set_currentTheme currentTheme);;
    write_fields (λ f,
      {| themeChangeListener := Some ThemeChangeListener;
         pageContextUnsubscribe := pageContextUnsubscribe f;
         saveStateUnsubscribe := saveStateUnsubscribe f;
         restoreStateUnsubscribe := restoreStateUnsubscribe f;
         clearStateUnsubscribe := clearStateUnsubscribe f |});;
    call (AddThemeChangeListener ThemeChangeListener)
         (λ h, (tt, h_addThemeChangeListener ops ThemeChangeListener h));;
    addDebugLog "Theme service initialized");;
  when (pageContext services) (
    u ← call (OnPageContextChange PageContextListener)
             (h_onPageContextChange ops PageContextListener);
    write_fields (λ f,
      {| themeChangeListener := themeChangeListener f;
         pageContextUnsubscribe := Some u;
         saveStateUnsubscribe := saveStateUnsubscribe f;
         restoreStateUnsubscribe := restoreStateUnsubscribe f;
         clearStateUnsubscribe := clearStateUnsubscribe f |});;
    addDebugLog "Page context service initialized").

(** [private async configurePluginState()]. *)
Definition configurePluginState : M H unit :=
  if negb (pluginState services)
  then throw "Error: Plugin state service not available"
  else
    now ← now_iso;
    call_throwing (Configure (consumer_config now))
                  (h_configure ops (consumer_config now));;
    us ← call (OnSave SaveHook) (h_onSave ops SaveHook);
    write_fields (λ f,
      {| themeChangeListener := themeChangeListener f;
         pageContextUnsubscribe := pageContextUnsubscribe f;
         saveStateUnsubscribe := Some us;
         restoreStateUnsubscribe := restoreStateUnsubscribe f;
         clearStateUnsubscribe := clearStateUnsubscribe f |});;
    ur ← call (OnRestore RestoreHook) (h_onRestore ops RestoreHook);
    write_fields (λ f,
      {| themeChangeListener := themeChangeListener f;
         pageContextUnsubscribe := pageContextUnsubscribe f;
         saveStateUnsubscribe := saveStateUnsubscribe f;
         restoreStateUnsubscribe := Some ur;
         clearStateUnsubscribe := clearStateUnsubscribe f |});;
    uc ← call (OnClear ClearHook) (h_onClear ops ClearHook);
    write_fields (λ f,
      {| themeChangeListener := themeChangeListener f;
         pageContextUnsubscribe := pageContextUnsubscribe f;
         saveStateUnsubscribe := saveStateUnsubscribe f;
         restoreStateUnsubscribe := restoreStateUnsubscribe f;
         clearStateUnsubscribe := Some uc |});;
    setState (set_isStateConfigured true);;
    addDebugLog "Plugin state configured successfully".

(** [if (this.u) { this.u() }] for an unsubscribe field. *)
Definition call_if_set (u : option Unsub) : M H unit :=
  match u with
  | Some f => call (Unsubscribe f) (λ h, (tt, h_unsubscribe ops f h))
  | None => mret tt
  end.

(** [private cleanupServices()]. *)
Definition cleanupServices : M H unit :=
  f ← read_fields;
  match themeChangeListener f with
  | Some l =>
      when (theme services)
        (call (RemoveThemeChangeListener l)
              (λ h, (tt, h_removeThemeChangeListener ops l h)))
  | None => mret tt
  end;;
  call_if_set (pageContextUnsubscribe f);;
  call_if_set (saveStateUnsubscribe f);;
  call_if_set (restoreStateUnsubscribe f);;
  call_if_set (clearStateUnsubscribe f);;
  addDebugLog "Services cleaned up".

(** [componentWillUnmount()]. *)
Definition componentWillUnmount : M H unit := cleanupServices.

(** [a || b] where [a] is an object or absent: an object is truthy. *)
Definition or_object {A} (a : option A) (b : A) : A :=
  match a with
  | Some x => x
  | None => b
  end.

(** [a || b] where [a] is a number or absent: [0] is falsy. *)
Definition or_number (a : option Z) (b : Z) : Z :=
  match a with
  | Some z => if Z.eqb z 0 then b else z
  | None => b
  end.

(** [const stateToSave = { testData: this.state.testData, saveCount:
    this.state.saveCount + 1, restoreCount: this.state.restoreCount }]. *)
Definition stateToSave (s : PluginStateTestState) : StateObject :=
  {| o_testData := Some (testData s);
     o_saveCount := Some (plus_1 (saveCount s));
     o_restoreCount := Some (restoreCount s) |}.

(** [private async saveState()]. *)
Definition saveState : M H unit :=
  if negb (pluginState services)
  then addDebugLog "ERROR: Plugin state service not available for save"
  else
    try_catch (
      setState (set_isLoading true);;
      s ← read_state;
      await (SaveState (stateToSave s)) (h_saveState ops (stateToSave s));;
      t ← now_local;
      s' ← read_state;
      setState (λ st,
        set_saveCount (plus_1 (saveCount s'))
          (set_lastSaveTime (Some t) (set_isLoading false st)));;
      addDebugLog "State saved successfully")
    (λ error,
      setState (λ st,
        set_error ("Failed to save state: " +:+ error) (set_isLoading false st));;
      addDebugLog ("Save failed: " +:+ error)).

(** [saveState()] called without [await], as the auto-save is: the
    method runs up to its [await], that is, the call of the service is
    made, and the caller goes on while the promise is pending. Without
    the service the method has no [await] and runs whole. *)
Definition saveState_started : M H unit :=
  if negb (pluginState services)
  then addDebugLog "ERROR: Plugin state service not available for save"
  else
    setState (set_isLoading true);;
    s ← read_state;
    call (SaveState (stateToSave s))
         (λ h, (tt, (h_saveState ops (stateToSave s) h).2)).

(** The rest of [saveState()], which runs when the promise of the call
    settles with [answer]: the closures the host dispatched for the call,
    then the lines after the [await], or the [catch] block. [this.state]
    is read then, not when the method started. *)
Definition saveState_resumed (answer : Answer unit) : M H unit :=
  try_catch (
    invoke_all (dispatched answer);;
    match settled answer with
    | Resolved a => mret a
    | Rejected e => throw e
    end;;
    t ← now_local;
    s' ← read_state;
    setState (λ st,
      set_saveCount (plus_1 (saveCount s'))
        (set_lastSaveTime (Some t) (set_isLoading false st)));;
    addDebugLog "State saved successfully")
  (λ error,
    setState (λ st,
      set_error ("Failed to save state: " +:+ error) (set_isLoading false st));;
    addDebugLog ("Save failed: " +:+ error)).

(** [private async restoreState()]. *)
Definition restoreState : M H unit :=
  if negb (pluginState services)
  then addDebugLog "ERROR: Plugin state service not available for restore"
  else
    try_catch (
      setState (set_isLoading true);;
      restoredState ← await GetState (h_getState ops);
      match restoredState with
      | Some restored =>
          s ← read_state;
          t ← now_local;
          setState (λ st,
            set_isLoading false
              (set_lastRestoreTime (Some t)
                (set_restoreCount (plus_1 (or_number (o_restoreCount restored) 0))
                  (set_saveCount (or_number (o_saveCount restored) 0)
                    (set_testData (or_object (o_testData restored) (testData s))
                       st)))));;
          addDebugLog "State restored successfully"
      | None =>
          setState (set_isLoading false);;
          addDebugLog "No saved state found"
      end)
    (λ error,
      setState (λ st,
        set_error ("Failed to restore state: " +:+ error) (set_isLoading false st));;
      addDebugLog ("Restore failed: " +:+ error)).

(** [private async clearState()]. *)
Definition clearState : M H unit :=
  if negb (pluginState services)
  then addDebugLog "ERROR: Plugin state service not available for clear"
  else
    try_catch (
      setState (set_isLoading true);;
      await ClearState (h_clearState ops);;
      now ← now_iso;
      setState (λ st,
        set_isLoading false
          (set_lastRestoreTime None
            (set_lastSaveTime None
              (set_restoreCount 0
                (set_saveCount 0
                  (set_testData (default_testData now) st))))));;
      addDebugLog "State cleared successfully")
    (λ error,
      setState (λ st,
        set_error ("Failed to clear state: " +:+ error) (set_isLoading false st));;
      addDebugLog ("Clear failed: " +:+ error)).

(** [private updateTestData = (updates: Partial<TestData>) => ...]: the
    state update, then, in its completion callback, the auto-save, which
    is not awaited. *)
Definition updateTestData (updates : PartialTestData) : M H unit :=
  now ← now_iso;
  setState (λ prevState,
    set_testData (with_timestamp now (spread (testData prevState) updates))
                 prevState);;
  saveState_started.

(** The handlers of the form controls. *)
Definition incrementCounter : M H unit :=
  s ← read_state;
  updateTestData
    {| u_counter := Some (plus_1 (counter (testData s))); u_textInput := None;
       u_checkboxValue := None; u_selectValue := None; u_timestamp := None |}.

Definition decrementCounter : M H unit :=
  s ← read_state;
  updateTestData
    {| u_counter := Some (minus_1 (counter (testData s))); u_textInput := None;
       u_checkboxValue := None; u_selectValue := None; u_timestamp := None |}.

Definition handleTextChange (target_value : string) : M H unit :=
  updateTestData
    {| u_counter := None; u_textInput := Some target_value;
       u_checkboxValue := None; u_selectValue := None; u_timestamp := None |}.

Definition handleCheckboxChange (target_checked : bool) : M H unit :=
  updateTestData
    {| u_counter := None; u_textInput := None;
       u_checkboxValue := Some target_checked; u_selectValue := None;
       u_timestamp := None |}.

Definition handleSelectChange (target_value : string) : M H unit :=
  updateTestData
    {| u_counter := None; u_textInput := None; u_checkboxValue := None;
       u_selectValue := Some target_value; u_timestamp := None |}.

(** [async componentDidMount()] ([console.error] leaves no trace in the
    component and is left out). *)
Definition componentDidMount : M H unit :=
  try_catch (
    initializeServices;;
    configurePluginState;;
    restoreState;;
    setState (set_isInitializing false);;
    addDebugLog "Component initialized successfully")
  (λ error,
    setState (λ st,
      set_isInitializing false
        (set_error "Failed to initialize plugin state test" st));;
    addDebugLog ("Initialization failed: " +:+ error)).

End Methods.

(** A change made through one of the form controls. *)
Inductive FormChange :=
| Increment
| Decrement
| TextInput (target_value : string)
| Checkbox (target_checked : bool)
| Select (target_value : string).

(** The handler React calls for a change. *)
Definition handle {H} (ops : HostOps H) (services : Services) (c : FormChange) : M H unit :=
  match c with
  | Increment => incrementCounter ops services
  | Decrement => decrementCounter ops services
  | TextInput v => handleTextChange ops services v
  | Checkbox b => handleCheckboxChange ops services b
  | Select v => handleSelectChange ops services v
  end.

(** The three operations on the persisted state, and the method of the
    component behind each of the three buttons. *)
Inductive Operation :=
| Save
| Restore
| Clear.

Definition run {H} (ops : HostOps H) (services : Services) (op : Operation) : M H unit :=
  match op with
  | Save => saveState ops services
  | Restore => restoreState ops services
  | Clear => clearState ops services
  end.

(** The rejection an answer carries, if it is one. *)
Definition rejection {A} (a : Answer A) : option string :=
  match settled a with
  | Rejected e => Some e
  | Resolved _ => None
  end.

(** The answer of the service to the call that operation [op] makes when
    it is started in world [w], reduced to its rejection. *)
Definition service_rejection {H} (ops : HostOps H) (op : Operation) (w : World H) : option string :=
  match op with
  | Save => rejection (h_saveState ops (stateToSave (this_state w)) (host w)).1
  | Restore => rejection (h_getState ops (host w)).1
  | Clear => rejection (h_clearState ops (host w)).1
  end.

(** The texts of the [catch] blocks. *)
Definition failure_text (op : Operation) : string :=
  match op with
  | Save => "Failed to save state: "
  | Restore => "Failed to restore state: "
  | Clear => "Failed to clear state: "
  end.

Definition failure_log (op : Operation) : string :=
  match op with
  | Save => "Save failed: "
  | Restore => "Restore failed: "
  | Clear => "Clear failed: "
  end.

(** What a change through a form control is meant to leave in [testData],
    control by control, at time [now]. *)
Definition changed (c : FormChange) (old : TestData) (now : string) : TestData :=
  match c with
  | Increment =>
      {| counter := plus_1 (counter old); textInput := textInput old;
         checkboxValue := checkboxValue old; selectValue := selectValue old;
         timestamp := now |}
  | Decrement =>
      {| counter := minus_1 (counter old); textInput := textInput old;
         checkboxValue := checkboxValue old; selectValue := selectValue old;
         timestamp := now |}
  | TextInput v =>
      {| counter := counter old; textInput := v;
         checkboxValue := checkboxValue old; selectValue := selectValue old;
         timestamp := now |}
  | Checkbox b =>
      {| counter := counter old; textInput := textInput old;
         checkboxValue := b; selectValue := selectValue old;
         timestamp := now |}
  | Select v =>
      {| counter := counter old; textInput := textInput old;
         checkboxValue := checkboxValue old; selectValue := v;
         timestamp := now |}
  end.

(** The calls that release what the fields hold: the listener removed
    (if the theme service is there to remove it from), each unsubscribe
    function called once. *)
Definition releases_with (theme_present : bool) (f : Fields) : list HostCall :=
  omap id [ (if theme_present
             then RemoveThemeChangeListener <$> themeChangeListener f
             else None);
            Unsubscribe <$> pageContextUnsubscribe f;
            Unsubscribe <$> saveStateUnsubscribe f;
            Unsubscribe <$> restoreStateUnsubscribe f;
            Unsubscribe <$> clearStateUnsubscribe f ].

(** 1 for a field that is set, 0 for one that is [null]. *)
Definition holds {A} (o : option A) : nat :=
  if o is Some _ then 1%nat else 0%nat.

(** The calls [cleanupServices] is meant to make: every capability the
    fields hold is released. *)
Definition releases (f : Fields) : list HostCall := releases_with true f.

(** A scripted host, for running the component on concrete inputs: its
    state holds the answers it gives. *)
Record Script := {
  script_save : Answer unit;
  script_get : Answer (option StateObject);
  script_clear : Answer unit;
  script_configure : Res unit;
  script_next : Unsub
}.

Definition scripted : HostOps Script :=
  {| h_toISOString h := ("2024-05-01T10:00:00.000Z", h);
     h_toLocaleTimeString h := ("10:00:00 AM", h);
     h_getCurrentTheme h := ("dark", h);
     h_addThemeChangeListener _ h := h;
     h_removeThemeChangeListener _ h := h;
     h_onPageContextChange _ h :=
       (script_next h,
        {| script_save := script_save h; script_get := script_get h;
           script_clear := script_clear h;
           script_configure := script_configure h;
           script_next := S (script_next h) |});
     h_configure _ h := (script_configure h, h);
     h_saveState _ h := (script_save h, h);
     h_getState h := (script_get h, h);
     h_clearState h := (script_clear h, h);
     h_onSave _ h :=
       (script_next h,
        {| script_save := script_save h; script_get := script_get h;
           script_clear := script_clear h;
           script_configure := script_configure h;
           script_next := S (script_next h) |});
     h_onRestore _ h :=
       (script_next h,
        {| script_save := script_save h; script_get := script_get h;
           script_clear := script_clear h;
           script_configure := script_configure h;
           script_next := S (script_next h) |});
     h_onClear _ h :=
       (script_next h,
        {| script_save := script_save h; script_get := script_get h;
           script_clear := script_clear h;
           script_configure := script_configure h;
           script_next := S (script_next h) |});
     h_unsubscribe _ h := h |}.

(** A host whose service rejects every operation with [e], after running
    the save hook once. *)
Definition rejecting (e : string) : Script :=
  {| script_save := {| dispatched := [{| inv_callback := SaveHook; inv_arg := "{}" |}];
                       settled := Rejected e |};
     script_get := {| dispatched := []; settled := Rejected e |};
     script_clear := {| dispatched := []; settled := Rejected e |};
     script_configure := Val tt;
     script_next := 0%nat |}.

(** A host whose service accepts every operation and restores [r]. *)
Definition accepting (r : option StateObject) : Script :=
  {| script_save := {| dispatched := [{| inv_callback := SaveHook; inv_arg := "{}" |}];
                       settled := Resolved tt |};
     script_get := {| dispatched := [{| inv_callback := RestoreHook; inv_arg := "{}" |}];
                      settled := Resolved r |};
     script_clear := {| dispatched := [{| inv_callback := ClearHook; inv_arg := "" |}];
                        settled := Resolved tt |};
     script_configure := Val tt;
     script_next := 7%nat |}.

Definition all_services : Services :=
  {| theme := true; pageContext := true; pluginState := true |}.

(** The theme and page-context services without the plugin-state one. *)
Definition no_plugin_state : Services :=
  {| theme := true; pageContext := true; pluginState := false |}.

(** A host that keeps in memory the object last saved: [getState]
    resolves with it, [clearState] forgets it, and [configure] returns or
    throws as [configured] says. *)
Definition in_memory (configured : Res unit) : HostOps (option StateObject) :=
  {| h_toISOString h := ("2024-05-01T10:00:00.000Z", h);
     h_toLocaleTimeString h := ("10:00:00 AM", h);
     h_getCurrentTheme h := ("dark", h);
     h_addThemeChangeListener _ h := h;
     h_removeThemeChangeListener _ h := h;
     h_onPageContextChange _ h := (0%nat, h);
     h_configure _ h := (configured, h);
     h_saveState o _ := ({| dispatched := []; settled := Resolved tt |}, Some o);
     h_getState h := ({| dispatched := []; settled := Resolved h |}, h);
     h_clearState _ := ({| dispatched := []; settled := Resolved tt |}, None);
     h_onSave _ h := (1%nat, h);
     h_onRestore _ h := (2%nat, h);
     h_onClear _ h := (3%nat, h);
     h_unsubscribe _ h := h |}.

(** A host whose service accepts the configuration and then rejects
    every operation with [e]. *)
Definition refusing (e : string) : HostOps unit :=
  {| h_toISOString h := ("2024-05-01T10:00:00.000Z", h);
     h_toLocaleTimeString h := ("10:00:00 AM", h);
     h_getCurrentTheme h := ("light", h);
     h_addThemeChangeListener _ h := h;
     h_removeThemeChangeListener _ h := h;
     h_onPageContextChange _ h := (0%nat, h);
     h_configure _ h := (Val tt, h);
     h_saveState _ h := ({| dispatched := []; settled := Rejected e |}, h);
     h_getState h := ({| dispatched := []; settled := Rejected e |}, h);
     h_clearState h := ({| dispatched := []; settled := Rejected e |}, h);
     h_onSave _ h := (1%nat, h);
     h_onRestore _ h := (2%nat, h);
     h_onClear _ h := (3%nat, h);
     h_unsubscribe _ h := h |}.

(** ** Worlds along a run *)

Section Worlds.
Context {H : Type} (ops : HostOps H).

(** The world after [addDebugLog message]: one entry more, the clock read
    once. *)
Definition logged (message : string) (w : World H) : World H :=
  {| this_state :=
       set_debugLogs
         (slice_last 19 (debugLogs (this_state w)) ++
          [logEntry (h_toLocaleTimeString ops (host w)).1 message])
         (this_state w);
     this_fields := this_fields w;
     host := (h_toLocaleTimeString ops (host w)).2;
     calls := calls w |}.

(** What the closures run by the host leave as it was: the persisted
    fields, the error, the private fields and the trace. *)
Definition untouched (w w' : World H) : Prop :=
  testData (this_state w') = testData (this_state w) ∧
  saveCount (this_state w') = saveCount (this_state w) ∧
  restoreCount (this_state w') = restoreCount (this_state w) ∧
  error (this_state w') = error (this_state w) ∧
  this_fields w' = this_fields w ∧
  calls w' = calls w.

(** The world right after service call [c], which left the host in [h]. *)
Definition called (c : HostCall) (h : H) (w : World H) : World H :=
  {| this_state := this_state w; this_fields := this_fields w;
     host := h; calls := calls w ++ [c] |}.

(** The world after [this.setState({ isLoading: true })]. *)
Definition loading (w : World H) : World H :=
  {| this_state := set_isLoading true (this_state w);
     this_fields := this_fields w; host := host w; calls := calls w |}.

(** The service call operation [op] makes when started in [w], and the
    world right after it. *)
Definition request (op : Operation) (w : World H) : HostCall :=
  match op with
  | Save => SaveState (stateToSave (this_state w))
  | Restore => GetState
  | Clear => ClearState
  end.

Definition requested (op : Operation) (w : World H) : World H :=
  called (request op w)
    match op with
    | Save => (h_saveState ops (stateToSave (this_state w)) (host w)).2
    | Restore => (h_getState ops (host w)).2
    | Clear => (h_clearState ops (host w)).2
    end
    (loading w).

(** The world after the [catch] block of operation [op] ran on [e]. *)
Definition caught (op : Operation) (e : string) (w : World H) : World H :=
  logged (failure_log op +:+ e)
    {| this_state := set_error (failure_text op +:+ e)
                       (set_isLoading false (this_state w));
       this_fields := this_fields w; host := host w; calls := calls w |}.

(** The world after the success path of [saveState], from the world [w]
    in which the awaited call returned. *)
Definition saved (w : World H) : World H :=
  logged "State saved successfully"
    {| this_state :=
         set_saveCount (plus_1 (saveCount (this_state w)))
           (set_lastSaveTime (Some (h_toLocaleTimeString ops (host w)).1)
             (set_isLoading false (this_state w)));
       this_fields := this_fields w;
       host := (h_toLocaleTimeString ops (host w)).2;
       calls := calls w |}.

(** The world after the two branches of [if (restoredState)]. *)
Definition restored (r : option StateObject) (w : World H) : World H :=
  match r with
  | Some o =>
      logged "State restored successfully"
        {| this_state :=
             set_isLoading false
               (set_lastRestoreTime (Some (h_toLocaleTimeString ops (host w)).1)
                 (set_restoreCount (plus_1 (or_number (o_restoreCount o) 0))
                   (set_saveCount (or_number (o_saveCount o) 0)
                     (set_testData (or_object (o_testData o) (testData (this_state w)))
                        (this_state w)))));
           this_fields := this_fields w;
           host := (h_toLocaleTimeString ops (host w)).2;
           calls := calls w |}
  | None =>
      logged "No saved state found"
        {| this_state := set_isLoading false (this_state w);
           this_fields := this_fields w; host := host w; calls := calls w |}
  end.

(** The host after it ran the closures [invs] with arguments they can
    print: each of them writes one debug log, which reads the clock
    once. *)
Definition after_callbacks (invs : list Invocation) (h : H) : H :=
  foldl (λ h' _, (h_toLocaleTimeString ops h').2) h invs.

(** A computation that leaves the field [themeChangeListener] as it is,
    however it ends. *)
Definition keeps_listener {A} (m : M H A) : Prop :=
  ∀ w, themeChangeListener (this_fields (m w).2)
       = themeChangeListener (this_fields w).

(** The world after the state update of [updateTestData] for change [c]. *)
Definition updated (c : FormChange) (w : World H) : World H :=
  {| this_state :=
       set_testData
         (changed c (testData (this_state w)) (h_toISOString ops (host w)).1)
         (this_state w);
     this_fields := this_fields w;
     host := (h_toISOString ops (host w)).2;
     calls := calls w |}.

End Worlds.

(** A component freshly constructed in host state [h]. *)
Definition new_component {H} (ops : HostOps H) (h : H) : World H :=
  let '(now, h') := h_toISOString ops h in
  {| this_state := initial_state now; this_fields := initial_fields;
     host := h'; calls := [] |}.

(** ** Rendering *)

(** The two optional props [render] reads, [title] and [description]. *)
Record Props := {
  title : option string;
  description : option string
}.

(** [a || b] where [a] is a string or [null]: [''] is falsy. *)
Definition or_string (a : option string) (b : string) : string :=
  match a with
  | Some (String c rest) => String c rest
  | _ => b
  end.

(** What [renderContent()] displays of the props and the state, and
    whether the three buttons are disabled. *)
Record Content := {
  shown_title : string;
  shown_description : string;
  shown_configured : bool;
  shown_lastSave : string;
  shown_lastRestore : string;
  shown_saveCount : Z;
  shown_restoreCount : Z;
  buttons_disabled : bool;
  shown_testData : TestData;
  shown_logs : list string
}.

(** The child of the root element: [renderLoading()], [renderError()]
    with its message, or [renderContent()]. *)
Inductive Body :=
| ShowLoading
| ShowError (message : string)
| ShowContent (c : Content).

(** What [render()] returns: the class of the root element and its
    child. *)
Record Rendered := {
  className : string;
  body : Body
}.

(** [private renderContent()]; the timestamp is kept as stored, where the
    source prints it with [toLocaleString]. *)
Definition renderContent (p : Props) (s : PluginStateTestState) : Content :=
  {| shown_title := default "Plugin State Test" (title p);
     shown_description :=
       default "Test plugin state persistence functionality" (description p);
     shown_configured := isStateConfigured s;
     shown_lastSave := or_string (lastSaveTime s) "Never";
     shown_lastRestore := or_string (lastRestoreTime s) "Never";
     shown_saveCount := saveCount s;
     shown_restoreCount := restoreCount s;
     buttons_disabled := isLoading s;
     shown_testData := testData s;
     shown_logs := debugLogs s |}.

(** [render()]. *)
Definition render (p : Props) (s : PluginStateTestState) : Rendered :=
  {| className :=
       "plugin-template " +:+
       (if String.eqb (currentTheme s) "dark" then "dark-theme" else "");
     body :=
       if isInitializing s then ShowLoading
       else match error s with
            | String _ _ => ShowError (error s)
            | EmptyString => ShowContent (renderContent p s)
            end |}.

(** A component given neither [title] nor [description]. *)
Definition no_props : Props := {| title := None; description := None |}.

(** The handler of the button "Clear Error":
    [() => this.setState({ error: '' })]. *)
Definition clearError {H} : M H unit := setState (set_error "").

(** ** Everything that can happen to a component *)

(** React mounting and unmounting it, the user pressing a button or
    changing a form control, the host calling one of the closures, with
    an argument that prints or with [undefined], and the promise of an
    auto-save settling. *)
Inductive Action :=
| Mount
| Unmount
| Press (op : Operation)
| Change (c : FormChange)
| Notify (i : Invocation)
| PressClearError
| NotifyUndefined (r : Reader)
| AutoSaveSettles (answer : Answer unit).

Definition perform {H} (ops : HostOps H) (services : Services) (a : Action) : M H unit :=
  match a with
  | Mount => componentDidMount ops services
  | Unmount => componentWillUnmount ops services
  | Press op => run ops services op
  | Change c => handle ops services c
  | Notify i => invoke ops i
  | PressClearError => clearError
  | NotifyUndefined r => invoke_undefined r
  | AutoSaveSettles answer => saveState_resumed ops answer
  end.

(** The actions that start nothing: the host calling a closure, and the
    promise of an auto-save settling. *)
Definition happens_meanwhile (a : Action) : bool :=
  match a with
  | Notify _ | NotifyUndefined _ | AutoSaveSettles _ => true
  | _ => false
  end.

(** The world after a sequence of actions. *)
Fixpoint perform_all {H} (ops : HostOps H) (services : Services)
    (actions : list Action) (w : World H) : World H :=
  match actions with
  | [] => w
  | a :: rest => perform_all ops services rest (perform ops services a w).2
  end.

(** ** Predicates for stating what the methods do *)

Section Predicates.
Context {H : Type}.

(** [Q] holds of the result and the world in which [m] ends. *)
Definition wp {A} (m : M H A) (Q : Res A → World H → Prop) (w : World H) : Prop :=
  Q (m w).1 (m w).2.

(** Two states that differ at most in [debugLogs]. *)
Definition same_but_logs (s s' : PluginStateTestState) : Prop :=
  set_debugLogs [] s' = set_debugLogs [] s.

(** What the closures run by the host can change: [debugLogs], which
    stays within 20 entries if it was, and [currentTheme]. *)
Definition callbacks_only (w w' : World H) : Prop :=
  set_currentTheme "" (set_debugLogs [] (this_state w'))
    = set_currentTheme "" (set_debugLogs [] (this_state w)) ∧
  this_fields w' = this_fields w ∧
  calls w' = calls w ∧
  ((length (debugLogs (this_state w)) ≤ 20)%nat →
   (length (debugLogs (this_state w')) ≤ 20)%nat).

(** The service a call is made on is present. An unsubscribe function
    comes from the page-context or the plugin-state service. *)
Definition on_present (services : Services) (c : HostCall) : bool :=
  match c with
  | GetCurrentTheme | AddThemeChangeListener _ | RemoveThemeChangeListener _ =>
      theme services
  | OnPageContextChange _ => pageContext services
  | Configure _ | OnSave _ | OnRestore _ | OnClear _
  | SaveState _ | GetState | ClearState => pluginState services
  | Unsubscribe _ => pageContext services || pluginState services
  end.

(** The fields hold nothing of a service that is absent. *)
Definition fields_of_present (services : Services) (f : Fields) : Prop :=
  (theme services = false → themeChangeListener f = None) ∧
  (pageContext services = false → pageContextUnsubscribe f = None) ∧
  (pluginState services = false →
   saveStateUnsubscribe f = None ∧ restoreStateUnsubscribe f = None ∧
   clearStateUnsubscribe f = None).

(** What holds of a component between two actions. *)
Definition settled_component (services : Services) (w : World H) : Prop :=
  (length (debugLogs (this_state w)) ≤ 20)%nat ∧
  fields_of_present services (this_fields w) ∧
  Forall (λ c, on_present services c = true) (calls w).

(** A text of ASCII characters: one byte, and one UTF-16 code unit, for
    each character. *)
Definition is_ascii_text (text : string) : Prop :=
  Forall (λ a, (Ascii.nat_of_ascii a < 128)%nat) (list_ascii_of_string text).

(** The theme the component shows after the host ran the closures
    [invs], starting from theme [current]. *)
Definition theme_after (invs : list Invocation) (current : string) : string :=
  foldl (λ t i, match inv_callback i with
                | ThemeChangeListener => inv_arg i
                | _ => t
                end) current invs.

(** Whether an awaited call resolved. *)
Definition resolves {A} (a : Answer A) : bool :=
  if settled a is Resolved _ then true else false.

(** The calls [initializeServices] makes. *)
Definition initialize_calls (services : Services) : list HostCall :=
  (if theme services
   then [GetCurrentTheme; AddThemeChangeListener ThemeChangeListener]
   else []) ++
  (if pageContext services
   then [OnPageContextChange PageContextListener]
   else []).

(** What [initializeServices] changes: [currentTheme] and [debugLogs],
    the two fields of the services that are present, and the trace. *)
Definition initialized (services : Services) (w w' : World H) : Prop :=
  set_currentTheme "" (set_debugLogs [] (this_state w'))
    = set_currentTheme "" (set_debugLogs [] (this_state w)) ∧
  themeChangeListener (this_fields w') =
    (if theme services then Some ThemeChangeListener
     else themeChangeListener (this_fields w)) ∧
  (if pageContext services
   then is_Some (pageContextUnsubscribe (this_fields w'))
   else pageContextUnsubscribe (this_fields w')
        = pageContextUnsubscribe (this_fields w)) ∧
  saveStateUnsubscribe (this_fields w') = saveStateUnsubscribe (this_fields w) ∧
  restoreStateUnsubscribe (this_fields w')
    = restoreStateUnsubscribe (this_fields w) ∧
  clearStateUnsubscribe (this_fields w') = clearStateUnsubscribe (this_fields w) ∧
  calls w' = calls w ++ initialize_calls services ∧
  ((length (debugLogs (this_state w)) ≤ 20)%nat →
   (length (debugLogs (this_state w')) ≤ 20)%nat).

End Predicates.

End Consumer.

(* ===================================================================== *)
(** * The State Store behind [PluginStateService]                         *)
(* ===================================================================== *)

(** The store is implemented by the host application: the repository has
    its interface (types.ts) and its caller (the Consumer), not its code.
    Every definition of this module is therefore written from sections
    3, 4, 6 and 7 of the specification. *)

Module StateStore.

(** Modelled from the spec: a State Snapshot, "a mapping from field name
    to value" (section 3); the store's code is missing from the sources. *)
Abbreviation Snapshot := (gmap string value).

(** Modelled from the spec: the error kinds of section 7; a configuration
    or validation error names the offending field. *)
Inductive StoreError :=
| ConfigurationError (field : string)
| ValidationError (field : string)
| StateTooLargeError
| StorageUnavailableError
| NotConfiguredError.

(** Modelled from the spec: an operation of the store completes or is
    rejected with one of the error kinds (section 7). *)
Inductive Outcome (A : Type) :=
| Ok (a : A)
| Err (e : StoreError).
Arguments Ok {A} a.
Arguments Err {A} e.

(** Modelled from the spec: the two policies section 4.2 (b) leaves to the
    implementer for a field of the wrong type: substitute the declared
    default, or fail with a [ValidationError]. *)
Inductive Policy :=
| UseDefault
| FailFast.

(** Modelled from the spec: the recognised persistence strategies; section
    3 names "session" and leaves the others to the future. *)
Definition recognised_strategies : list string := ["session"].

(** Modelled from the spec: the four checks of [configure] (section 4.1),
    in the order the specification lists them. *)
Definition validate_config (c : Config) : Outcome unit :=
  if bool_decide (pluginId c = "") then Err (ConfigurationError "pluginId")
  else if negb (bool_decide (stateStrategy c ∈ recognised_strategies))
  then Err (ConfigurationError "stateStrategy")
  else if negb (forallb (λ k, bool_decide (is_Some (stateSchema c !! k)))
                        (preserveKeys c))
  then Err (ConfigurationError "preserveKeys")
  else if negb (0 <? maxStateSize c)%Z then Err (ConfigurationError "maxStateSize")
  else Ok tt.

(** Modelled from the spec: serialisation of a snapshot into the blob the
    medium holds, and the size [maxStateSize] bounds (sections 3, 4.2 (c)). *)
Class Codec (B : Type) := {
  serialize : Snapshot → B;
  deserialize : B → option Snapshot;
  blob_size : B → Z
}.

(** Modelled from the spec: what is read back is what was written. *)
Class CodecLaws (B : Type) `{Codec B} := {
  deserialize_serialize : ∀ s : Snapshot, deserialize (serialize s) = Some s
}.

(** Modelled from the spec: the downward contract of section 6, a
    key-value medium with [get], [set] and [delete]; [None] is a failed
    read or write ([StorageUnavailableError]). *)
Class Medium (Md B : Type) := {
  med_get : Md → string → option (option B);
  med_set : Md → string → B → option Md;
  med_delete : Md → string → option Md
}.

(** Modelled from the spec: a medium that keeps what it is given: a
    completed [set] or [delete] is what later reads see, and deleting a
    key that holds nothing completes. *)
Class MediumLaws (Md B : Type) `{Medium Md B} := {
  med_get_set : ∀ (m m' : Md) k (b : B) k',
    med_set m k b = Some m' →
    med_get m' k' = if decide (k = k') then Some (Some b) else med_get m k';
  med_get_delete : ∀ (m m' : Md) k k',
    med_delete m k = Some m' →
    med_get m' k' = if decide (k = k') then Some (@None B) else med_get m k';
  med_delete_absent : ∀ (m : Md) k,
    med_get m k = Some (@None B) → is_Some (med_delete m k)
}.

(** Modelled from the spec: the session-scoped medium of the observed
    usage, a key-value store keyed by plugin id (section 5). *)
#[global] Instance session_medium {B} : Medium (gmap string B) B := {|
  med_get m k := Some (m !! k);
  med_set m k b := Some (<[k := b]> m);
  med_delete m k := Some (delete k m)
|}.

(** Modelled from the spec: the three lifecycle events (section 3). *)
Inductive Event :=
| Saved
| Restored
| Cleared.

#[global] Instance Event_eq_dec : EqDecision Event.
Proof. solve_decision. Defined.

(** Modelled from the spec: a Consumer-provided callback, as the store
    sees it: given the payload it returns, or throws ([Some] message). *)
Definition callback := option Snapshot → option string.

(** Modelled from the spec: a Lifecycle Subscription, a callback for one
    event with the unique id its unsubscribe capability uses (sections 3
    and 9). *)
Record Subscription := {
  sub_id : nat;
  sub_event : Event;
  sub_callback : callback
}.

(** Modelled from the spec: one invocation of a callback during dispatch,
    with what it threw, caught and reported (section 4.2 (e)). *)
Record Dispatch := {
  d_id : nat;
  d_event : Event;
  d_payload : option Snapshot;
  d_threw : option string
}.

(** Modelled from the spec: the state of the store: the active
    configuration, the medium, the subscriptions in registration order,
    and the dispatches made so far. *)
Record Store (Md : Type) := {
  active : option Config;
  medium : Md;
  subscriptions : list Subscription;
  next_id : nat;
  dispatches : list Dispatch
}.
Arguments active {Md} s.
Arguments medium {Md} s.
Arguments subscriptions {Md} s.
Arguments next_id {Md} s.
Arguments dispatches {Md} s.

(** Modelled from the spec: what [getState] resolves with: the snapshot,
    or the explicit "no state" result (section 4.3). *)
Inductive Restore :=
| NoState
| State (s : Snapshot).

(** Modelled from the spec: "validate each field against its schema type". *)
Definition conforms (v : value) (fs : FieldSchema) : bool :=
  bool_decide (type_of v = f_type fs).

(** Modelled from the spec: step (a) of [saveState], keep only the
    [preserveKeys] fields and drop the others silently. *)
Definition preserved (c : Config) (s : Snapshot) : Snapshot :=
  filter (λ kv, kv.1 ∈ preserveKeys c) s.

(** Modelled from the spec: the fields of a snapshot whose value is not of
    the type the schema declares for them. *)
Definition is_mistyped (c : Config) (k : string) (v : value) : bool :=
  match stateSchema c !! k with
  | Some fs => negb (conforms v fs)
  | None => false
  end.

(** Modelled from the spec: the wrongly typed part of a snapshot, for the
    fail-fast policy of section 4.2 (b). *)
Definition mistyped (c : Config) (s : Snapshot) : Snapshot :=
  filter (λ kv, is_mistyped c kv.1 kv.2 = true) s.

(** Modelled from the spec: a field of the wrong type takes its declared
    default. *)
Definition recover (c : Config) (s : Snapshot) : Snapshot :=
  map_imap (λ k v,
    match stateSchema c !! k with
    | Some fs => Some (if conforms v fs then v else f_default fs)
    | None => Some v
    end) s.

(** Modelled from the spec: step (b) of [saveState] under either policy. *)
Definition validate_fields (p : Policy) (c : Config) (s : Snapshot) : Outcome Snapshot :=
  match p with
  | UseDefault => Ok (recover c s)
  | FailFast =>
      match map_to_list (mistyped c s) with
      | [] => Ok s
      | (k, _) :: _ => Err (ValidationError k)
      end
  end.

(** Modelled from the spec: the re-validation of [getState] (section 4.3):
    a schema field that is missing or of the wrong type takes its default,
    the other fields are returned as persisted. *)
Definition revalidate (c : Config) (s : Snapshot) : Snapshot :=
  merge (λ ofs ov,
    match ofs, ov with
    | Some fs, Some v => Some (if conforms v fs then v else f_default fs)
    | Some fs, None => Some (f_default fs)
    | None, ov => ov
    end) (stateSchema c) s.

Section Operations.
Context {B Md : Type} `{Codec B} `{Medium Md B} (policy : Policy).

(** Modelled from the spec: a store that was never configured. *)
Definition new_store (m : Md) : Store Md :=
  {| active := None; medium := m; subscriptions := []; next_id := 0;
     dispatches := [] |}.

(** Modelled from the spec: the store after a completed write of the
    medium (steps 4.2 (d) and 4.4). *)
Definition with_medium (m : Md) (st : Store Md) : Store Md :=
  {| active := active st; medium := m; subscriptions := subscriptions st;
     next_id := next_id st; dispatches := dispatches st |}.

(** Modelled from the spec: dispatch of an event (sections 4.2 (e), 4.5):
    every callback registered for it is invoked once, in registration
    order, with the payload; what a callback throws is caught and
    reported, and nothing else of the store changes. *)
Definition dispatch (ev : Event) (payload : option Snapshot) (st : Store Md) : Store Md :=
  {| active := active st; medium := medium st;
     subscriptions := subscriptions st; next_id := next_id st;
     dispatches := dispatches st ++
       map (λ s, {| d_id := sub_id s; d_event := ev; d_payload := payload;
                    d_threw := sub_callback s payload |})
           (filter (λ s, sub_event s = ev) (subscriptions st)) |}.

(** Modelled from the spec: [configure(config)] (section 4.1): an invalid
    configuration is refused and nothing of it is retained, a valid one
    replaces the active configuration. The defaults derived from the
    schema are read from the active configuration where they are used. *)
Definition configure (c : Config) (st : Store Md) : Outcome unit * Store Md :=
  match validate_config c with
  | Err e => (Err e, st)
  | Ok _ =>
      (Ok tt, {| active := Some c; medium := medium st;
                 subscriptions := subscriptions st; next_id := next_id st;
                 dispatches := dispatches st |})
  end.

(** Modelled from the spec: [getConfiguration()], with [None] for "not
    configured". *)
Definition getConfiguration (st : Store Md) : option Config := active st.

(** Modelled from the spec: [saveState(state)], steps (a) to (e) of
    section 4.2. *)
Definition saveState (s : Snapshot) (st : Store Md) : Outcome unit * Store Md :=
  match active st with
  | None => (Err NotConfiguredError, st)
  | Some c =>
      match validate_fields policy c (preserved c s) with
      | Err e => (Err e, st)
      | Ok checked =>
          let blob := serialize checked in
          if (maxStateSize c <? blob_size blob)%Z
          then (Err StateTooLargeError, st)
          else
            match med_set (medium st) (pluginId c) blob with
            | None => (Err StorageUnavailableError, st)
            | Some m => (Ok tt, dispatch Saved (Some checked) (with_medium m st))
            end
      end
  end.

(** Modelled from the spec: the size step (c) of [saveState] measures for
    snapshot [s], when steps (a) and (b) let it get that far. *)
Definition serialized_size (c : Config) (s : Snapshot) : option Z :=
  match validate_fields policy c (preserved c s) with
  | Ok checked => Some (blob_size (serialize checked))
  | Err _ => None
  end.

(** Modelled from the spec: [getState()] (section 4.3). A blob that does
    not decode counts as a failed read. *)
Definition getState (st : Store Md) : Outcome Restore * Store Md :=
  match active st with
  | None => (Err NotConfiguredError, st)
  | Some c =>
      match med_get (medium st) (pluginId c) with
      | None => (Err StorageUnavailableError, st)
      | Some None => (Ok NoState, st)
      | Some (Some blob) =>
          match deserialize blob with
          | None => (Err StorageUnavailableError, st)
          | Some persisted =>
              let final := revalidate c persisted in
              (Ok (State final), dispatch Restored (Some final) st)
          end
      end
  end.

(** Modelled from the spec: [clearState()] (section 4.4). *)
Definition clearState (st : Store Md) : Outcome unit * Store Md :=
  match active st with
  | None => (Err NotConfiguredError, st)
  | Some c =>
      match med_delete (medium st) (pluginId c) with
      | None => (Err StorageUnavailableError, st)
      | Some m => (Ok tt, dispatch Cleared None (with_medium m st))
      end
  end.

(** Modelled from the spec: the registrars of section 4.5; the id
    returned stands for the unsubscribe capability. *)
Definition subscribe (ev : Event) (cb : callback) (st : Store Md) : nat * Store Md :=
  (next_id st,
   {| active := active st; medium := medium st;
      subscriptions := subscriptions st ++
        [{| sub_id := next_id st; sub_event := ev; sub_callback := cb |}];
      next_id := S (next_id st); dispatches := dispatches st |}).

(** Modelled from the spec: [onSave], [onRestore] and [onClear]. *)
Definition onSave := subscribe Saved.
Definition onRestore := subscribe Restored.
Definition onClear := subscribe Cleared.

(** Modelled from the spec: invoking an unsubscribe capability removes
    exactly its callback; a second invocation finds nothing to remove. *)
Definition unsubscribe (id : nat) (st : Store Md) : Store Md :=
  {| active := active st; medium := medium st;
     subscriptions := filter (λ s, sub_id s ≠ id) (subscriptions st);
     next_id := next_id st; dispatches := dispatches st |}.

(** The round trip as section 8 words it: after a successful
    [saveState s], [getState] returns exactly the [preserveKeys] fields of
    [s]. *)
Definition exact_round_trip (c : Config) (s : Snapshot) (st : Store Md) : Prop :=
  ∀ st1, saveState s st = (Ok tt, st1) →
         (getState st1).1 = Ok (State (preserved c s)).

End Operations.

(** A snapshot that supplies every field of the schema, preserved and
    with a value of the declared type. *)
Definition complete (c : Config) (s : Snapshot) : Prop :=
  ∀ k fs, stateSchema c !! k = Some fs →
          k ∈ preserveKeys c ∧ ∃ v, s !! k = Some v ∧ conforms v fs = true.

(** What [getState] returns for field [k] after [saveState s]: the value
    [s] supplies if the field is preserved and of the declared type, the
    schema default otherwise, nothing for a field outside the schema. *)
Definition round_trip_field (c : Config) (s : Snapshot) (k : string) : option value :=
  match stateSchema c !! k with
  | Some fs =>
      Some match preserved c s !! k with
           | Some v => if conforms v fs then v else f_default fs
           | None => f_default fs
           end
  | None => None
  end.

(** The double quote character, as a string. *)
Definition dquote : string := String (Ascii.ascii_of_nat 34) EmptyString.

(** The JSON text of a value (strings are written without escapes). *)
Fixpoint json (v : value) : string :=
  match v with
  | VNum z => pretty z
  | VStr s => dquote +:+ s +:+ dquote
  | VBool b => if b then "true" else "false"
  | VObj props =>
      "{" +:+
      (fix members (ps : list (string * value)) : string :=
         match ps with
         | [] => ""
         | (k, v) :: rest =>
             dquote +:+ k +:+ dquote +:+ ":" +:+ json v +:+
             (if rest is [] then "" else ",") +:+ members rest
         end) props
      +:+ "}"
  end.

(** Modelled from the spec: a codec for running the store on concrete
    snapshots: the blob is the snapshot itself, and its size in bytes the
    length of its JSON text. *)
#[global] Instance json_size_codec : Codec Snapshot := {|
  serialize s := s;
  deserialize b := Some b;
  blob_size b := Z.of_nat (String.length (json (VObj (map_to_list b))))
|}.

(** Modelled from the spec: the configuration of the concrete scenario of
    section 8, with [maxStateSize] left open. *)
Definition scenario_config_of (max : Z) : Config :=
  {| pluginId := "demo";
     stateStrategy := "session";
     preserveKeys := ["counter"];
     stateSchema :=
       {[ "counter" := {| f_type := "number"; f_required := false;
                          f_default := VNum 0 |} ]};
     maxStateSize := max |}.

(** Modelled from the spec: that scenario with its [maxStateSize: 1024]. *)
Definition scenario_config : Config := scenario_config_of 1024.

(** Snapshots of that scenario: the one section 8 saves, one without any
    preserved field, and one whose JSON text is longer than 1024 bytes. *)
Definition five_and_more : Snapshot :=
  {[ "counter" := VNum 5; "extraneous" := VStr "x" ]}.

Definition only_extraneous : Snapshot := {[ "extraneous" := VStr "x" ]}.

Definition oversized : Snapshot := {[ "counter" := VNum (10 ^ 1100) ]}.

(** A store configured with [c], on an empty session medium. *)
Definition store_of (c : Config) : Store (gmap string Snapshot) :=
  {| active := Some c; medium := ∅; subscriptions := [];
     next_id := 0; dispatches := [] |}.

(** The store of the scenario of section 8. *)
Definition scenario_store : Store (gmap string Snapshot) :=
  store_of scenario_config.

End StateStore.

(* ===================================================================== *)
(** * Properties of the interface                                          *)
(* ===================================================================== *)

Section InterfaceFacts.
Import Iface.

(** C1. The interface [PluginStateService] has the members of section 4
    under their exact names and with the declared shapes: [configure]
    takes the configuration and returns [void]; [getConfiguration] is
    there; [saveState], [getState] and [clearState] each return a promise;
    [onSave], [onRestore] and [onClear] each take one callback and return
    an unsubscribe function of type [() => void]. *)
Theorem PluginStateService_surface :
  member "configure" PluginStateService = Some (TsFun [TsAny] TsVoid) ∧
  member "getConfiguration" PluginStateService = Some (TsFun [] TsAny) ∧
  member "saveState" PluginStateService = Some (TsFun [TsAny] (TsPromise TsVoid)) ∧
  member "getState" PluginStateService = Some (TsFun [] (TsPromise TsAny)) ∧
  member "clearState" PluginStateService = Some (TsFun [] (TsPromise TsVoid)) ∧
  member "onSave" PluginStateService
    = Some (TsFun [TsFun [TsAny] TsVoid] unsubscribe_type) ∧
  member "onRestore" PluginStateService
    = Some (TsFun [TsFun [TsAny] TsVoid] unsubscribe_type) ∧
  member "onClear" PluginStateService
    = Some (TsFun [TsFun [] TsVoid] unsubscribe_type) ∧
  (∀ t, member "configure" PluginStateService = Some t → returns_void 1 t = true) ∧
  Forall (λ name, ∃ t, member name PluginStateService = Some t ∧
                       returns_promise t = true)
         ["saveState"; "getState"; "clearState"] ∧
  Forall (λ name, ∃ t, member name PluginStateService = Some t ∧
                       is_registrar t = true)
         ["onSave"; "onRestore"; "onClear"] ∧
  NoDup (map fst PluginStateService).
Proof.
  repeat match goal with |- _ ∧ _ => split end; try reflexivity.
  - intros t Ht. vm_compute in Ht. by injection Ht as <-.
  - repeat constructor; eexists; split; reflexivity.
  - repeat constructor; eexists; split; reflexivity.
  - by apply (bool_decide_unpack _).
Qed.

End InterfaceFacts.

(* ===================================================================== *)
(** * Properties of the Consumer                                           *)
(* ===================================================================== *)

Section ConsumerFacts.
Import Consumer.
Context {H : Type} (ops : HostOps H).

(** ** Numbers *)

Lemma to_double_exact z : Z.abs z ≤ 2 ^ 53 → to_double z = z.
Proof.
  intros Hz. unfold to_double.
  destruct (Z.ltb_spec (Z.abs z) (2 ^ 53)) as [Hlt|Hge]; [ done | ].
  assert (Z.abs z = 2 ^ 53) as Habs by lia.
  destruct (Z.abs_spec z) as [[_ Hz']|[_ Hz']]; rewrite Habs.
  - assert (z = 2 ^ 53) as -> by lia. by vm_compute.
  - assert (z = - 2 ^ 53) as -> by lia. by vm_compute.
Qed.

Lemma plus_1_safe n : isSafeInteger n = true → plus_1 n = n + 1.
Proof.
  unfold isSafeInteger, plus_1. intros Hn%Z.leb_le. apply to_double_exact. lia.
Qed.

Lemma minus_1_safe n : isSafeInteger n = true → minus_1 n = n - 1.
Proof.
  unfold isSafeInteger, minus_1. intros Hn%Z.leb_le. apply to_double_exact. lia.
Qed.

(** Adding 1 to a safe integer and subtracting it again gives the
    integer back, also from [2^53 - 1], whose successor is not safe. *)
Lemma minus_1_plus_1 n : isSafeInteger n = true → minus_1 (plus_1 n) = n.
Proof.
  intros Hn. rewrite (plus_1_safe n Hn).
  unfold isSafeInteger in Hn. apply Z.leb_le in Hn.
  unfold minus_1. rewrite to_double_exact; lia.
Qed.

(** ** Running the monad *)

Lemma bind_val {A B} (m : M H A) (k : A → M H B) w a w' :
  m w = (Val a, w') → (m ≫= k) w = k a w'.
Proof. intros E. unfold mbind, M_bind, bind. by rewrite E. Qed.

Lemma bind_thrown {A B} (m : M H A) (k : A → M H B) w e w' :
  m w = (Thrown e, w') → (m ≫= k) w = (Thrown e, w').
Proof. intros E. unfold mbind, M_bind, bind. by rewrite E. Qed.

Lemma slice_last_length {A} n (xs : list A) :
  (length (slice_last n xs) ≤ n)%nat.
Proof. unfold slice_last. rewrite length_drop. lia. Qed.

Lemma slice_last_suffix {A} n (xs : list A) :
  xs = take (length xs - n) xs ++ slice_last n xs.
Proof. unfold slice_last. by rewrite take_drop. Qed.

Lemma ask_run {A} (op : H → A * H) w :
  ask op w = (Val (op (host w)).1,
              {| this_state := this_state w; this_fields := this_fields w;
                 host := (op (host w)).2; calls := calls w |}).
Proof. unfold ask. by destruct (op (host w)). Qed.

Lemma addDebugLog_run message w :
  addDebugLog ops message w = (Val tt, logged ops message w).
Proof.
  unfold addDebugLog, logged, now_local, ask, setState, mbind, M_bind, bind.
  by destruct (h_toLocaleTimeString ops (host w)).
Qed.

Lemma untouched_refl (w : World H) : untouched w w.
Proof. by repeat split. Qed.

Lemma untouched_trans (w1 w2 w3 : World H) :
  untouched w1 w2 → untouched w2 w3 → untouched w1 w3.
Proof. unfold untouched. intros (?&?&?&?&?&?) (?&?&?&?&?&?). repeat split; congruence. Qed.

Lemma logged_untouched message w : untouched w (logged ops message w).
Proof. by repeat split. Qed.

Lemma invoke_run i w :
  ∃ w', invoke ops i w = (Val tt, w') ∧ untouched w w'.
Proof.
  unfold invoke. destruct (inv_callback i).
  - eexists. split.
    + erewrite bind_val; [ apply addDebugLog_run | reflexivity ].
    + by repeat split.
  - eexists. split; [ apply addDebugLog_run | apply logged_untouched ].
  - eexists. split; [ apply addDebugLog_run | apply logged_untouched ].
  - eexists. split; [ apply addDebugLog_run | apply logged_untouched ].
  - eexists. split; [ apply addDebugLog_run | apply logged_untouched ].
Qed.

Lemma invoke_all_run invs w :
  ∃ w', invoke_all ops invs w = (Val tt, w') ∧ untouched w w'.
Proof.
  revert w. induction invs as [|i invs IH]; intros w; simpl.
  - exists w. split; [ reflexivity | apply untouched_refl ].
  - destruct (invoke_run i w) as (w1 & E1 & U1).
    destruct (IH w1) as (w2 & E2 & U2).
    exists w2. split; [ | by eapply untouched_trans ].
    erewrite bind_val; eauto.
Qed.

Lemma await_run {A} c (op : H → Answer A * H) w :
  ∃ w', untouched (called c (op (host w)).2 w) w' ∧
        await ops c op w =
          (match settled (op (host w)).1 with
           | Resolved a => Val a
           | Rejected e => Thrown e
           end, w').
Proof.
  destruct (invoke_all_run (dispatched (op (host w)).1)
              (called c (op (host w)).2 w)) as (w' & E & U).
  exists w'. split; [ exact U | ].
  unfold await.
  rewrite (bind_val (call c op) _ w (op (host w)).1 (called c (op (host w)).2 w)).
  2: { unfold call, called. by destruct (op (host w)). }
  erewrite bind_val; [ | exact E ].
  by destruct (settled (op (host w)).1).
Qed.

(** C8. After every call of [addDebugLog] the list [debugLogs] has at
    most 20 entries, its last entry is the new one, and the entries
    before it are the previous list with only its oldest entries left
    out. *)
Theorem addDebugLog_keeps_last_20 (message : string) (w : World H) :
  let entry := logEntry (h_toLocaleTimeString ops (host w)).1 message in
  let old := debugLogs (this_state w) in
  let new := debugLogs (this_state (addDebugLog ops message w).2) in
  (addDebugLog ops message w).1 = Val tt ∧
  (length new ≤ 20)%nat ∧
  last new = Some entry ∧
  ∃ dropped kept,
    old = dropped ++ kept ∧ new = kept ++ [entry] ∧
    length dropped = (length old - 19)%nat.
Proof.
  rewrite addDebugLog_run. simpl. split; [ reflexivity | ]. split; [ | split ].
  - rewrite length_app. simpl. pose proof (slice_last_length 19 (debugLogs (this_state w))). lia.
  - apply last_snoc.
  - exists (take (length (debugLogs (this_state w)) - 19) (debugLogs (this_state w))),
           (slice_last 19 (debugLogs (this_state w))).
    split; [ apply slice_last_suffix | ]. split; [ reflexivity | ].
    rewrite length_take. lia.
Qed.

(** ** The three operations *)

Context (services : Services).

Lemma rejection_settled {A} (a : Answer A) e :
  rejection a = Some e → settled a = Rejected e.
Proof. unfold rejection. destruct (settled a); naive_solver. Qed.

Lemma run_rejected op w e :
  pluginState services = true →
  service_rejection ops op w = Some e →
  ∃ w', untouched (requested ops op w) w' ∧
        run ops services op w = (Val tt, caught ops op e w').
Proof.
  intros Hsvc Hrej. destruct op; simpl in Hrej; apply rejection_settled in Hrej.
  - destruct (await_run (SaveState (stateToSave (this_state w)))
                (h_saveState ops (stateToSave (this_state w))) (loading w))
      as (w' & U & E).
    simpl in E. rewrite Hrej in E.
    exists w'. split; [ exact U | ].
    unfold run, saveState. rewrite Hsvc. cbn [negb]. unfold try_catch.
    rewrite (bind_val _ _ w tt (loading w)) by reflexivity.
    rewrite (bind_val _ _ (loading w) (this_state (loading w)) (loading w)) by reflexivity.
    erewrite bind_thrown; [ | exact E ].
    erewrite bind_val; [ apply addDebugLog_run | reflexivity ].
  - destruct (await_run GetState (h_getState ops) (loading w)) as (w' & U & E).
    simpl in E. rewrite Hrej in E.
    exists w'. split; [ exact U | ].
    unfold run, restoreState. rewrite Hsvc. cbn [negb]. unfold try_catch.
    rewrite (bind_val _ _ w tt (loading w)) by reflexivity.
    erewrite bind_thrown; [ | exact E ].
    erewrite bind_val; [ apply addDebugLog_run | reflexivity ].
  - destruct (await_run ClearState (h_clearState ops) (loading w)) as (w' & U & E).
    simpl in E. rewrite Hrej in E.
    exists w'. split; [ exact U | ].
    unfold run, clearState. rewrite Hsvc. cbn [negb]. unfold try_catch.
    rewrite (bind_val _ _ w tt (loading w)) by reflexivity.
    erewrite bind_thrown; [ | exact E ].
    erewrite bind_val; [ apply addDebugLog_run | reflexivity ].
Qed.

(** C6. Whenever the service rejects the call of [saveState],
    [restoreState] or [clearState], the method of the component returns
    normally (the error is caught, not thrown again), [error] holds the
    failure text with the rejection, the last debug log reports it, and
    [testData], [saveCount] and [restoreCount] are as before the call. *)
Theorem rejection_is_caught (op : Operation) (w : World H) (e : string) :
  pluginState services = true →
  service_rejection ops op w = Some e →
  ∃ w', run ops services op w = (Val tt, w') ∧
        error (this_state w') = failure_text op +:+ e ∧
        (∃ t, last (debugLogs (this_state w'))
              = Some (logEntry t (failure_log op +:+ e))) ∧
        isLoading (this_state w') = false ∧
        testData (this_state w') = testData (this_state w) ∧
        saveCount (this_state w') = saveCount (this_state w) ∧
        restoreCount (this_state w') = restoreCount (this_state w).
Proof.
  intros Hsvc Hrej.
  destruct (run_rejected op w e Hsvc Hrej) as (w1 & (Htd & Hsc & Hrc & _) & E).
  eexists. split; [ exact E | ].
  split; [ reflexivity | ]. split.
  { eexists. apply last_snoc. }
  split; [ reflexivity | ].
  simpl. rewrite Htd, Hsc, Hrc. by destruct op.
Qed.

Lemma saveState_run w :
  pluginState services = true →
  ∃ w', untouched (requested ops Save w) w' ∧
        saveState ops services w =
          (Val tt,
           match settled (h_saveState ops (stateToSave (this_state w)) (host w)).1 with
           | Resolved _ => saved ops w'
           | Rejected e => caught ops Save e w'
           end).
Proof.
  intros Hsvc.
  destruct (settled (h_saveState ops (stateToSave (this_state w)) (host w)).1)
    as [[]|e] eqn:Hans.
  - destruct (await_run (SaveState (stateToSave (this_state w)))
                (h_saveState ops (stateToSave (this_state w))) (loading w))
      as (w' & U & E).
    simpl in E. rewrite Hans in E.
    exists w'. split; [ exact U | ].
    unfold saveState. rewrite Hsvc. cbn [negb]. unfold try_catch.
    rewrite (bind_val _ _ w tt (loading w)) by reflexivity.
    rewrite (bind_val _ _ (loading w) (this_state (loading w)) (loading w)) by reflexivity.
    erewrite bind_val; [ | exact E ].
    erewrite bind_val; [ | apply ask_run ].
    erewrite bind_val; [ | reflexivity ].
    erewrite bind_val; [ | reflexivity ].
    by rewrite addDebugLog_run.
  - apply (run_rejected Save). { exact Hsvc. }
    simpl. unfold rejection. by rewrite Hans.
Qed.

Lemma restoreState_run w :
  pluginState services = true →
  ∃ w', untouched (requested ops Restore w) w' ∧
        restoreState ops services w =
          (Val tt,
           match settled (h_getState ops (host w)).1 with
           | Resolved r => restored ops r w'
           | Rejected e => caught ops Restore e w'
           end).
Proof.
  intros Hsvc.
  destruct (settled (h_getState ops (host w)).1) as [r|e] eqn:Hans.
  - destruct (await_run GetState (h_getState ops) (loading w)) as (w' & U & E).
    simpl in E. rewrite Hans in E.
    exists w'. split; [ exact U | ].
    unfold restoreState. rewrite Hsvc. cbn [negb]. unfold try_catch.
    rewrite (bind_val _ _ w tt (loading w)) by reflexivity.
    erewrite bind_val; [ | exact E ].
    destruct r as [o|]; unfold restored.
    + erewrite bind_val; [ | reflexivity ].
      erewrite bind_val; [ | apply ask_run ].
      erewrite bind_val; [ | reflexivity ].
      by rewrite addDebugLog_run.
    + erewrite bind_val; [ | reflexivity ].
      by rewrite addDebugLog_run.
  - apply (run_rejected Restore). { exact Hsvc. }
    simpl. unfold rejection. by rewrite Hans.
Qed.

(** The two halves of [saveState]: its start, run by a caller that does
    not await, and its rest, run when the promise settles. *)
Lemma saveState_started_run w :
  saveState_started ops services w =
    (Val tt,
     if pluginState services then requested ops Save w
     else logged ops "ERROR: Plugin state service not available for save" w).
Proof.
  unfold saveState_started. destruct (pluginState services); cbn [negb].
  - reflexivity.
  - apply addDebugLog_run.
Qed.

Lemma saveState_resumed_run answer w :
  ∃ w', untouched w w' ∧
        saveState_resumed ops answer w =
          (Val tt,
           match settled answer with
           | Resolved _ => saved ops w'
           | Rejected e => caught ops Save e w'
           end).
Proof.
  destruct (invoke_all_run (dispatched answer) w) as (w' & E & U).
  exists w'. split; [ exact U | ].
  unfold saveState_resumed, try_catch.
  erewrite bind_val; [ | exact E ].
  destruct (settled answer) as [[]|e].
  - erewrite bind_val; [ | reflexivity ].
    erewrite bind_val; [ | apply ask_run ].
    erewrite bind_val; [ | reflexivity ].
    erewrite bind_val; [ | reflexivity ].
    by rewrite addDebugLog_run.
  - erewrite bind_thrown; [ | reflexivity ].
    erewrite bind_val; [ apply addDebugLog_run | reflexivity ].
Qed.

(** Awaited, [saveState] is its start followed at once by its rest, on
    the answer of the service to the call made. *)
Lemma saveState_in_two_halves w :
  pluginState services = true →
  saveState ops services w =
    saveState_resumed ops
      (h_saveState ops (stateToSave (this_state w)) (host w)).1
      (saveState_started ops services w).2.
Proof.
  intros Hsvc.
  rewrite saveState_started_run, Hsvc. cbn [snd].
  unfold saveState, saveState_resumed, try_catch, await, requested, request.
  rewrite Hsvc. cbn [negb].
  unfold mbind, M_bind, bind, setState, read_state, call, called, loading,
    stateToSave.
  simpl.
  destruct (h_saveState ops _ (host w)) as [answer h']. simpl.
  destruct (invoke_all ops (dispatched answer) _) as [[[]|e] w']; reflexivity.
Qed.

Lemma handle_run c w :
  handle ops services c w =
    (Val tt, (saveState_started ops services (updated ops c w)).2).
Proof.
  destruct c; unfold handle, incrementCounter, decrementCounter,
    handleTextChange, handleCheckboxChange, handleSelectChange, updateTestData,
    updated, now_iso, ask, read_state, setState,
    mbind, M_bind, bind; simpl;
  destruct (h_toISOString ops (host w)); simpl;
  rewrite !saveState_started_run; reflexivity.
Qed.

Lemma or_number_default a : or_number a 0 = default 0 a.
Proof. destruct a as [z|]; simpl; [ | done ]. by destruct (Z.eqb_spec z 0). Qed.

(** C7 (as amended). A change through a form control (counter up or down, text,
    checkbox, select) leaves in [testData] the previous data with the
    changed property merged in and the timestamp set to the current time,
    and starts a save that it does not await: the service is called
    once, with a snapshot that has exactly the three [preserveKeys]
    fields [testData], [saveCount] and [restoreCount], and the handler
    returns with [saveCount] as it was. When the promise of that save
    resolves, in whatever state the component is by then (other changes
    and other saves may have come in between), [saveCount] becomes the
    [saveCount] of that moment plus 1 as numbers add: exactly 1 more
    when it is a safe integer. *)
Theorem change_is_merged_and_saved (c : FormChange) (w : World H) :
  pluginState services = true →
  let now := (h_toISOString ops (host w)).1 in
  let merged := changed c (testData (this_state w)) now in
  let snapshot :=
    {| o_testData := Some merged;
       o_saveCount := Some (plus_1 (saveCount (this_state w)));
       o_restoreCount := Some (restoreCount (this_state w)) |} in
  let answer := (h_saveState ops snapshot (h_toISOString ops (host w)).2).1 in
  ∃ w', handle ops services c w = (Val tt, w') ∧
        testData (this_state w') = merged ∧
        timestamp (testData (this_state w')) = now ∧
        calls w' = calls w ++ [SaveState snapshot] ∧
        keys snapshot = preserveKeys (consumer_config now) ∧
        saveCount (this_state w') = saveCount (this_state w) ∧
        restoreCount (this_state w') = restoreCount (this_state w) ∧
        (settled answer = Resolved tt →
         ∀ later : World H,
           ∃ w'', saveState_resumed ops answer later = (Val tt, w'') ∧
                  saveCount (this_state w'') = plus_1 (saveCount (this_state later)) ∧
                  (isSafeInteger (saveCount (this_state later)) = true →
                   saveCount (this_state w'') = saveCount (this_state later) + 1) ∧
                  testData (this_state w'') = testData (this_state later) ∧
                  restoreCount (this_state w'') = restoreCount (this_state later)).
Proof.
  intros Hsvc now merged snapshot answer.
  exists (requested ops Save (updated ops c w)).
  split. { by rewrite handle_run, saveState_started_run, Hsvc. }
  split; [ reflexivity | ].
  split. { simpl. by destruct c. }
  split; [ reflexivity | ]. split; [ reflexivity | ].
  split; [ reflexivity | ]. split; [ reflexivity | ].
  intros Hres later.
  destruct (saveState_resumed_run answer later) as (w1 & (Htd & Hsc & Hrc & _) & E).
  rewrite Hres in E. eexists. split; [ exact E | ].
  simpl. rewrite Hsc, Htd, Hrc.
  split; [ done | ]. split; [ apply plus_1_safe | done ].
Qed.


(** ** Mounting and unmounting *)

Lemma keeps_ret {A} (a : A) : keeps_listener (mret a : M H A).
Proof. by intros w. Qed.

Lemma keeps_throw {A} e : keeps_listener (@throw H A e).
Proof. by intros w. Qed.

Lemma keeps_bind {A B} (m : M H A) (k : A → M H B) :
  keeps_listener m → (∀ a, keeps_listener (k a)) → keeps_listener (m ≫= k).
Proof.
  intros Hm Hk w. unfold mbind, M_bind, bind.
  specialize (Hm w). destruct (m w) as [[a|e] w1]; simpl in *; [ | done ].
  by rewrite Hk.
Qed.

Lemma keeps_try_catch {A} (m : M H A) handler :
  keeps_listener m → (∀ e, keeps_listener (handler e)) →
  keeps_listener (try_catch m handler).
Proof.
  intros Hm Hh w. unfold try_catch.
  specialize (Hm w). destruct (m w) as [[a|e] w1]; simpl in *; [ done | ].
  by rewrite Hh.
Qed.

Lemma keeps_when c (m : M H unit) :
  keeps_listener m → keeps_listener (when c m).
Proof. intros Hm. destruct c; [ exact Hm | apply keeps_ret ]. Qed.

Lemma keeps_read_state : keeps_listener (@read_state H).
Proof. by intros w. Qed.

Lemma keeps_read_fields : keeps_listener (@read_fields H).
Proof. by intros w. Qed.

Lemma keeps_setState f : keeps_listener (@setState H f).
Proof. by intros w. Qed.

Lemma keeps_write_fields f :
  (∀ x, themeChangeListener (f x) = themeChangeListener x) →
  keeps_listener (@write_fields H f).
Proof. intros Hf w. apply Hf. Qed.

Lemma keeps_ask {A} (op : H → A * H) : keeps_listener (ask op).
Proof. intros w. by rewrite ask_run. Qed.

Lemma keeps_call {A} c (op : H → A * H) : keeps_listener (call c op).
Proof. intros w. unfold call. by destruct (op (host w)). Qed.

Lemma keeps_call_throwing {A} c (op : H → Res A * H) :
  keeps_listener (call_throwing c op).
Proof. intros w. unfold call_throwing. by destruct (op (host w)). Qed.

Lemma keeps_addDebugLog message : keeps_listener (addDebugLog ops message).
Proof. intros w. by rewrite addDebugLog_run. Qed.

Lemma keeps_await {A} c (op : H → Answer A * H) : keeps_listener (await ops c op).
Proof.
  intros w. destruct (await_run c op w) as (w' & (_&_&_&_&Hf&_) & E).
  rewrite E. simpl. by rewrite Hf.
Qed.

Lemma keeps_call_if_set u : keeps_listener (call_if_set ops u).
Proof. destruct u; [ apply keeps_call | apply keeps_ret ]. Qed.

Create HintDb keeps.
#[local] Hint Resolve keeps_ret keeps_throw keeps_bind keeps_try_catch
  keeps_when keeps_read_state keeps_read_fields
  keeps_setState keeps_write_fields keeps_ask keeps_call keeps_call_throwing
  keeps_addDebugLog keeps_await keeps_call_if_set : keeps.

Lemma keeps_configurePluginState : keeps_listener (configurePluginState ops services).
Proof.
  unfold configurePluginState, now_iso.
  destruct (negb (pluginState services)); eauto 30 with keeps.
Qed.

Lemma keeps_restoreState : keeps_listener (restoreState ops services).
Proof.
  unfold restoreState, now_local.
  destruct (negb (pluginState services)); [ eauto with keeps | ].
  apply keeps_try_catch; [ | eauto with keeps ].
  apply keeps_bind; [ eauto with keeps | intros _ ].
  apply keeps_bind; [ eauto with keeps | intros [o|] ]; eauto 20 with keeps.
Qed.

Lemma keeps_componentDidMount :
  theme services = false → keeps_listener (componentDidMount ops services).
Proof.
  intros Ht. unfold componentDidMount, initializeServices. rewrite Ht.
  pose proof keeps_configurePluginState. pose proof keeps_restoreState.
  eauto 30 with keeps.
Qed.

(** A listener is held only if the theme service it was added to is
    there: true of a component once mounted. *)
Lemma mounted_listener w :
  this_fields w = initial_fields →
  is_Some (themeChangeListener (this_fields (componentDidMount ops services w).2)) →
  theme services = true.
Proof.
  intros Hf [l Hl]. destruct (theme services) eqn:Ht; [ done | ].
  rewrite (keeps_componentDidMount Ht), Hf in Hl. discriminate.
Qed.

Lemma cleanupServices_run w :
  ∃ w', cleanupServices ops services w = (Val tt, w') ∧
        calls w' = calls w ++ releases_with (theme services) (this_fields w) ∧
        this_fields w' = this_fields w ∧
        testData (this_state w') = testData (this_state w) ∧
        saveCount (this_state w') = saveCount (this_state w) ∧
        restoreCount (this_state w') = restoreCount (this_state w).
Proof.
  unfold cleanupServices, releases_with, read_fields, call_if_set, when, call,
    mbind, M_bind, bind, mret, M_ret, ret.
  destruct (this_fields w) as [[l|] [pc|] [sv|] [rs|] [cl|]] eqn:Hf,
    (theme services);
    simpl; rewrite addDebugLog_run; eexists; (split; [ reflexivity | ]);
    simpl; rewrite <- ?app_assoc, ?app_nil_r, ?Hf; by repeat split.
Qed.


End ConsumerFacts.

(* ===================================================================== *)
(** * Properties of the State Store                                        *)
(* ===================================================================== *)

Section StoreFacts.
Import StateStore.

Lemma validate_config_ok (c : Config) :
  validate_config c = Ok tt ↔
  pluginId c ≠ "" ∧ stateStrategy c ∈ recognised_strategies ∧
  Forall (λ k, is_Some (stateSchema c !! k)) (preserveKeys c) ∧
  0 < maxStateSize c.
Proof.
  unfold validate_config.
  destruct (bool_decide_reflect (pluginId c = "")) as [Hp|Hp].
  { split; [ discriminate | naive_solver ]. }
  destruct (bool_decide_reflect (stateStrategy c ∈ recognised_strategies)) as [Hs|Hs];
    simpl; [ | split; [ discriminate | naive_solver ] ].
  destruct (forallb _ (preserveKeys c)) eqn:Hk; simpl.
  - assert (Forall (λ k, is_Some (stateSchema c !! k)) (preserveKeys c)) as Hk'.
    { apply Forall_forall. intros k Hin.
      rewrite forallb_forall in Hk. apply list_elem_of_In, Hk in Hin.
      by apply bool_decide_eq_true in Hin. }
    destruct (Z.ltb_spec 0 (maxStateSize c)); simpl.
    + by split.
    + split; [ discriminate | intros (_&_&_&?); lia ].
  - split; [ discriminate | ]. intros (_&_&Hall&_).
    apply not_true_iff_false in Hk. destruct Hk.
    apply forallb_forall. intros k Hin. apply bool_decide_eq_true.
    rewrite Forall_forall in Hall. by apply Hall, list_elem_of_In.
Qed.

(** C2. The configuration the Consumer passes to [configure] meets every
    validity condition of sections 3 and 4.1: its [pluginId]
    ("PluginState") is not empty, its [stateStrategy] ("session") is a
    recognised strategy, every key of its [preserveKeys] ("testData",
    "saveCount", "restoreCount") is a field of its [stateSchema], and its
    [maxStateSize] (10240) is positive; the store accepts it. *)
Theorem consumer_config_valid (now_iso : string) :
  let c := Consumer.consumer_config now_iso in
  pluginId c = "PluginState" ∧ pluginId c ≠ "" ∧
  stateStrategy c = "session" ∧ stateStrategy c ∈ recognised_strategies ∧
  preserveKeys c = ["testData"; "saveCount"; "restoreCount"] ∧
  Forall (λ k, is_Some (stateSchema c !! k)) (preserveKeys c) ∧
  maxStateSize c = 10240 ∧ 0 < maxStateSize c ∧
  validate_config c = Ok tt.
Proof.
  intros c.
  assert (validate_config c = Ok tt) as Hv by reflexivity.
  pose proof (proj1 (validate_config_ok c) Hv) as (?&?&?&?).
  by repeat split.
Qed.

Section Generic.
Context {B Md : Type} `{CodecLaws B} `{MediumLaws Md B} (policy : Policy).

Lemma preserved_lookup c (s : Snapshot) k :
  preserved c s !! k = if decide (k ∈ preserveKeys c) then s !! k else None.
Proof.
  unfold preserved. rewrite map_lookup_filter.
  destruct (s !! k) as [v|]; simpl; [ | by destruct (decide _) ].
  destruct (decide (k ∈ preserveKeys c)).
  - by rewrite option_guard_True.
  - by rewrite option_guard_False.
Qed.

Lemma recover_lookup c (s : Snapshot) k :
  recover c s !! k =
  match s !! k with
  | Some v => Some match stateSchema c !! k with
                   | Some fs => if conforms v fs then v else f_default fs
                   | None => v
                   end
  | None => None
  end.
Proof.
  unfold recover. rewrite map_lookup_imap.
  destruct (s !! k); simpl; [ | done ]. by destruct (stateSchema c !! k).
Qed.

Lemma revalidate_lookup c (s : Snapshot) k :
  revalidate c s !! k =
  match stateSchema c !! k with
  | Some fs => Some match s !! k with
                    | Some v => if conforms v fs then v else f_default fs
                    | None => f_default fs
                    end
  | None => s !! k
  end.
Proof.
  unfold revalidate. rewrite lookup_merge.
  by destruct (stateSchema c !! k), (s !! k).
Qed.

(** Step (b), under either policy, on the fields one by one. *)
Lemma validate_fields_lookup c (s checked : Snapshot) k :
  validate_fields policy c s = Ok checked →
  checked !! k =
  match s !! k with
  | Some v => Some match stateSchema c !! k with
                   | Some fs => if conforms v fs then v else f_default fs
                   | None => v
                   end
  | None => None
  end.
Proof.
  unfold validate_fields. destruct policy.
  - intros [= <-]. apply recover_lookup.
  - destruct (map_to_list (mistyped c s)) as [|[k' v'] rest] eqn:Hbad; [ | done ].
    intros [= <-]. apply map_to_list_empty_iff in Hbad.
    destruct (s !! k) as [v|] eqn:Hk; [ | done ]. f_equal.
    destruct (stateSchema c !! k) as [fs|] eqn:Hfs; [ | done ].
    destruct (conforms v fs) eqn:Hty; [ done | ].
    assert (mistyped c s !! k = Some v) as Hin.
    { apply map_lookup_filter_Some. split; [ done | ].
      unfold is_mistyped. simpl. by rewrite Hfs, Hty. }
    rewrite Hbad, lookup_empty in Hin. discriminate.
Qed.

(** What a successful [saveState] leaves behind. *)
Lemma saveState_ok s (st st1 : Store Md) c :
  active st = Some c →
  saveState policy s st = (Ok tt, st1) →
  ∃ checked m,
    validate_fields policy c (preserved c s) = Ok checked ∧
    blob_size (serialize checked) ≤ maxStateSize c ∧
    med_set (medium st) (pluginId c) (serialize checked) = Some m ∧
    st1 = dispatch Saved (Some checked) (with_medium m st).
Proof.
  intros Hc. unfold saveState. rewrite Hc.
  destruct (validate_fields policy c (preserved c s)) as [checked|e]; [ | done ].
  destruct (Z.ltb_spec (maxStateSize c) (blob_size (serialize checked))); [ done | ].
  destruct (med_set (medium st) (pluginId c) (serialize checked)) as [m|] eqn:Hm;
    [ | done ].
  intros [= <-]. by exists checked, m.
Qed.

(** C3 (as amended). After a successful [saveState s] under a valid
    configuration, [getState] returns a snapshot that holds, for every
    field of the schema, the value [s] supplies when the field is one of
    the [preserveKeys] and the value has the declared type, and the
    schema default otherwise, and that holds no other field; it is
    exactly the [preserveKeys] fields of [s] when [s] supplies every
    field of the schema, preserved and well typed. *)
Theorem save_then_get_round_trip (s : Snapshot) (st st1 : Store Md) (c : Config) :
  active st = Some c →
  validate_config c = Ok tt →
  saveState policy s st = (Ok tt, st1) →
  ∃ r st2,
    getState st1 = (Ok (State r), st2) ∧
    (∀ k, r !! k = round_trip_field c s k) ∧
    (complete c s → r = preserved c s).
Proof.
  intros Hc Hvalid Hsave.
  destruct (saveState_ok s st st1 c Hc Hsave) as (checked & m & Hchk & _ & Hset & ->).
  apply validate_config_ok in Hvalid as (_ & _ & Hkeys & _).
  assert (∀ k, revalidate c checked !! k = round_trip_field c s k) as Hfield.
  { intros k. rewrite revalidate_lookup. unfold round_trip_field.
    rewrite (validate_fields_lookup _ _ _ k Hchk).
    destruct (stateSchema c !! k) as [fs|] eqn:Hfs.
    - destruct (preserved c s !! k) as [v|]; [ | done ].
      destruct (conforms v fs) eqn:Hty; [ by rewrite Hty | ].
      by destruct (conforms (f_default fs) fs).
    - rewrite preserved_lookup. case_decide as Hin; [ | done ].
      rewrite Forall_forall in Hkeys. apply Hkeys in Hin as [fs Hfs'].
      congruence. }
  exists (revalidate c checked), (dispatch Restored (Some (revalidate c checked))
                                    (dispatch Saved (Some checked) (with_medium m st))).
  split; [ | split ].
  - unfold getState. simpl. rewrite Hc.
    rewrite (med_get_set _ _ _ _ (pluginId c) Hset).
    case_decide; [ | done ]. by rewrite deserialize_serialize.
  - exact Hfield.
  - intros Hcomplete. apply map_eq. intros k. rewrite Hfield.
    unfold round_trip_field.
    destruct (stateSchema c !! k) as [fs|] eqn:Hfs.
    + destruct (Hcomplete k fs Hfs) as (Hin & v & Hv & Hty).
      rewrite preserved_lookup. case_decide; [ | done ]. by rewrite Hv, Hty.
    + rewrite preserved_lookup. case_decide as Hin; [ | done ].
      rewrite Forall_forall in Hkeys. apply Hkeys in Hin as [fs Hfs'].
      congruence.
Qed.

(** C4. A [saveState] whose serialised snapshot is larger than
    [maxStateSize] is rejected with [StateTooLargeError] and persists
    nothing: the store, and with it the medium and what [getState]
    returns, is as before. *)
Theorem oversize_save_is_rejected (s : Snapshot) (st : Store Md) (c : Config) (n : Z) :
  active st = Some c →
  serialized_size policy c s = Some n →
  maxStateSize c < n →
  saveState policy s st = (Err StateTooLargeError, st) ∧
  medium (saveState policy s st).2 = medium st ∧
  getState (saveState policy s st).2 = getState st.
Proof.
  intros Hc Hsize Hlt.
  assert (saveState policy s st = (Err StateTooLargeError, st)) as E.
  { unfold saveState, serialized_size in *. rewrite Hc.
    destruct (validate_fields policy c (preserved c s)) as [checked|e]; [ | done ].
    injection Hsize as <-.
    by destruct (Z.ltb_spec (maxStateSize c) (blob_size (serialize checked))); [ | lia ]. }
  by rewrite E.
Qed.

(** C5. [clearState] deletes the snapshot of the configured plugin and
    nothing else; after it [getState] gives "no state", and a second
    [clearState], on the state that is already empty, completes without
    error and leaves it empty. *)
Theorem clearState_idempotent (st st1 : Store Md) (c : Config) :
  active st = Some c →
  clearState st = (Ok tt, st1) →
  getState st1 = (Ok NoState, st1) ∧
  (∃ st2, clearState st1 = (Ok tt, st2) ∧
          getState st2 = (Ok NoState, st2) ∧
          ∀ k, med_get (medium st2) k = med_get (medium st1) k) ∧
  (∀ k, k ≠ pluginId c → med_get (medium st1) k = med_get (medium st) k).
Proof.
  intros Hc. unfold clearState at 1. rewrite Hc.
  destruct (med_delete (medium st) (pluginId c)) as [m|] eqn:Hdel; [ | done ].
  intros [= <-].
  assert (med_get m (pluginId c) = Some None) as Hgone.
  { rewrite (med_get_delete _ _ _ (pluginId c) Hdel). by case_decide. }
  split; [ | split ].
  - unfold getState. simpl. by rewrite Hc, Hgone.
  - destruct (med_delete_absent m (pluginId c) Hgone) as [m2 Hdel2].
    eexists. split; [ | split ].
    + unfold clearState. simpl. by rewrite Hc, Hdel2.
    + unfold getState. simpl. rewrite Hc.
      rewrite (med_get_delete _ _ _ (pluginId c) Hdel2). by case_decide.
    + intros k. simpl. rewrite (med_get_delete _ _ _ k Hdel2).
      case_decide; [ by subst | done ].
  - intros k Hk. simpl. rewrite (med_get_delete _ _ _ k Hdel). by case_decide.
Qed.

End Generic.

(** ** The store on the session medium, run on the scenario of section 8 *)

#[local] Instance json_size_codec_laws : CodecLaws Snapshot.
Proof. by constructor. Qed.

#[local] Instance session_medium_laws {B} : MediumLaws (gmap string B) B.
Proof.
  constructor.
  - intros m m' k b k' [= <-]. simpl. case_decide as Hk.
    + subst. by rewrite lookup_insert_eq.
    + by rewrite lookup_insert_ne.
  - intros m m' k k' [= <-]. simpl. case_decide as Hk.
    + subst. by rewrite lookup_delete_eq.
    + by rewrite lookup_delete_ne.
  - intros m k _. by eexists.
Qed.

Example scenario_save :
  (getState (saveState UseDefault five_and_more scenario_store).2).1
  = Ok (State {[ "counter" := VNum 5 ]}).
Proof. vm_compute. reflexivity. Qed.

Example scenario_clear :
  (getState (clearState (saveState UseDefault five_and_more scenario_store).2).2).1
  = Ok NoState.
Proof. vm_compute. reflexivity. Qed.

(** A snapshot of exactly [maxStateSize] bytes is saved; with one byte
    less allowed it is refused, and the state saved before is still what
    [getState] returns. *)
Example size_boundary :
  let five : Snapshot := {[ "counter" := VNum 5 ]} in
  let six : Snapshot := {[ "counter" := VNum 6 ]} in
  serialized_size FailFast (scenario_config_of 13) five = Some 13 ∧
  (saveState FailFast five (store_of (scenario_config_of 13))).1 = Ok tt ∧
  (let st := (saveState FailFast five (store_of (scenario_config_of 13))).2 in
   let tight :=
     {| active := Some (scenario_config_of 12); medium := medium st;
        subscriptions := []; next_id := 0; dispatches := [] |} in
   (saveState FailFast six tight).1 = Err StateTooLargeError ∧
   (getState (saveState FailFast six tight).2).1 = Ok (State five)).
Proof. repeat split; vm_compute; reflexivity. Qed.

(** The snapshot the Consumer saves goes through the store it configured
    and comes back as it was. *)
Example consumer_snapshot_round_trip :
  let c := Consumer.consumer_config "2024-05-01T10:00:00.000Z" in
  let st := (configure c (new_store (∅ : gmap string Snapshot))).2 in
  let s := Consumer.to_snapshot
             (Consumer.stateToSave
                (Consumer.initial_state "2024-05-01T10:00:00.000Z")) in
  (saveState FailFast s st).1 = Ok tt ∧
  (getState (saveState FailFast s st).2).1 = Ok (State s).
Proof. split; vm_compute; reflexivity. Qed.

Lemma save_then_get_round_trip_witness :
  let st1 := (saveState UseDefault five_and_more scenario_store).2 in
  active scenario_store = Some scenario_config ∧
  validate_config scenario_config = Ok tt ∧
  saveState UseDefault five_and_more scenario_store = (Ok tt, st1) ∧
  ∃ r st2,
    getState st1 = (Ok (State r), st2) ∧
    (∀ k, r !! k = round_trip_field scenario_config five_and_more k) ∧
    (complete scenario_config five_and_more →
     r = preserved scenario_config five_and_more).
Proof.
  intros st1.
  assert (saveState UseDefault five_and_more scenario_store = (Ok tt, st1)) as E
    by (vm_compute; reflexivity).
  split; [ reflexivity | ]. split; [ reflexivity | ]. split; [ exact E | ].
  apply (save_then_get_round_trip UseDefault five_and_more scenario_store st1
           scenario_config); [ reflexivity | reflexivity | exact E ].
Defined.

(** The round trip of section 8 is not exact: saving a snapshot without
    the preserved field [counter] and reading it back gives [counter]
    with its default, which is not a field of what was saved. *)
Lemma round_trip_not_exact :
  serialized_size UseDefault scenario_config only_extraneous = Some 2 ∧
  2 ≤ maxStateSize scenario_config ∧
  (saveState UseDefault only_extraneous scenario_store).1 = Ok tt ∧
  (getState (saveState UseDefault only_extraneous scenario_store).2).1
    = Ok (State {[ "counter" := VNum 0 ]}) ∧
  preserved scenario_config only_extraneous = ∅ ∧
  ¬ exact_round_trip UseDefault scenario_config only_extraneous scenario_store ∧
  ¬ exact_round_trip FailFast scenario_config only_extraneous scenario_store.
Proof.
  split; [ by vm_compute | ]. split; [ by vm_compute | ].
  split; [ by vm_compute | ]. split; [ by vm_compute | ].
  split; [ by vm_compute | ].
  split; intros Hexact.
  - specialize (Hexact (saveState UseDefault only_extraneous scenario_store).2).
    assert (saveState UseDefault only_extraneous scenario_store
            = (Ok tt, (saveState UseDefault only_extraneous scenario_store).2)) as E
      by (vm_compute; reflexivity).
    specialize (Hexact E). vm_compute in Hexact. discriminate Hexact.
  - specialize (Hexact (saveState FailFast only_extraneous scenario_store).2).
    assert (saveState FailFast only_extraneous scenario_store
            = (Ok tt, (saveState FailFast only_extraneous scenario_store).2)) as E
      by (vm_compute; reflexivity).
    specialize (Hexact E). vm_compute in Hexact. discriminate Hexact.
Qed.

Lemma oversize_save_is_rejected_witness :
  active scenario_store = Some scenario_config ∧
  serialized_size FailFast scenario_config oversized = Some 1113 ∧
  maxStateSize scenario_config < 1113 ∧
  saveState FailFast oversized scenario_store
    = (Err StateTooLargeError, scenario_store) ∧
  medium (saveState FailFast oversized scenario_store).2 = medium scenario_store ∧
  getState (saveState FailFast oversized scenario_store).2 = getState scenario_store.
Proof.
  assert (serialized_size FailFast scenario_config oversized = Some 1113) as Hsize
    by (vm_compute; reflexivity).
  split; [ reflexivity | ]. split; [ exact Hsize | ]. split; [ reflexivity | ].
  apply (oversize_save_is_rejected FailFast oversized scenario_store
           scenario_config 1113); [ reflexivity | exact Hsize | reflexivity ].
Defined.

Lemma clearState_idempotent_witness :
  let st := (saveState UseDefault five_and_more scenario_store).2 in
  let st1 := (clearState st).2 in
  active st = Some scenario_config ∧
  clearState st = (Ok tt, st1) ∧
  getState st1 = (Ok NoState, st1) ∧
  (∃ st2, clearState st1 = (Ok tt, st2) ∧
          getState st2 = (Ok NoState, st2) ∧
          ∀ k, med_get (medium st2) k = med_get (medium st1) k) ∧
  (∀ k, k ≠ pluginId scenario_config →
        med_get (medium st1) k = med_get (medium st) k).
Proof.
  intros st st1.
  assert (active st = Some scenario_config) as Hc by (vm_compute; reflexivity).
  assert (clearState st = (Ok tt, st1)) as E by (vm_compute; reflexivity).
  split; [ exact Hc | ]. split; [ exact E | ].
  apply (clearState_idempotent st st1 scenario_config Hc E).
Defined.

End StoreFacts.

Section ConsumerWitnesses.
Import Consumer.

Lemma rejection_is_caught_witness :
  let w := new_component scripted (rejecting "quota exceeded") in
  pluginState all_services = true ∧
  service_rejection scripted Save w = Some "quota exceeded" ∧
  ∃ w', run scripted all_services Save w = (Val tt, w') ∧
        error (this_state w') = failure_text Save +:+ "quota exceeded" ∧
        (∃ t, last (debugLogs (this_state w'))
              = Some (logEntry t (failure_log Save +:+ "quota exceeded"))) ∧
        isLoading (this_state w') = false ∧
        testData (this_state w') = testData (this_state w) ∧
        saveCount (this_state w') = saveCount (this_state w) ∧
        restoreCount (this_state w') = restoreCount (this_state w).
Proof.
  intros w. split; [ reflexivity | ]. split; [ reflexivity | ].
  apply (rejection_is_caught scripted all_services Save w "quota exceeded");
    reflexivity.
Defined.

Lemma change_is_merged_and_saved_witness :
  let w := new_component scripted (accepting None) in
  let now := (h_toISOString scripted (host w)).1 in
  let merged := changed Increment (testData (this_state w)) now in
  let snapshot :=
    {| o_testData := Some merged;
       o_saveCount := Some (plus_1 (saveCount (this_state w)));
       o_restoreCount := Some (restoreCount (this_state w)) |} in
  let answer := (h_saveState scripted snapshot (h_toISOString scripted (host w)).2).1 in
  pluginState all_services = true ∧
  ∃ w', handle scripted all_services Increment w = (Val tt, w') ∧
        testData (this_state w') = merged ∧
        timestamp (testData (this_state w')) = now ∧
        calls w' = calls w ++ [SaveState snapshot] ∧
        keys snapshot = preserveKeys (consumer_config now) ∧
        saveCount (this_state w') = saveCount (this_state w) ∧
        restoreCount (this_state w') = restoreCount (this_state w) ∧
        (settled answer = Resolved tt →
         ∀ later : World Script,
           ∃ w'', saveState_resumed scripted answer later = (Val tt, w'') ∧
                  saveCount (this_state w'') = plus_1 (saveCount (this_state later)) ∧
                  (isSafeInteger (saveCount (this_state later)) = true →
                   saveCount (this_state w'') = saveCount (this_state later) + 1) ∧
                  testData (this_state w'') = testData (this_state later) ∧
                  restoreCount (this_state w'') = restoreCount (this_state later)).
Proof.
  intros w now merged snapshot answer. split; [ reflexivity | ].
  apply (change_is_merged_and_saved scripted all_services Increment w).
  reflexivity.
Defined.

(** A [saveCount] of 2^53 is not counted up: the component that restored
    it, made a change and saw the auto-save of that change resolve still
    has [saveCount] 2^53, where one more would be 2^53 + 1. *)
Lemma auto_save_at_2_53_is_not_counted :
  let r := Some {| o_testData := None; o_saveCount := Some (2 ^ 53);
                   o_restoreCount := None |} in
  let w := (restoreState scripted all_services
              (new_component scripted (accepting r))).2 in
  let now := (h_toISOString scripted (host w)).1 in
  let merged := changed (TextInput "a") (testData (this_state w)) now in
  let snapshot :=
    {| o_testData := Some merged;
       o_saveCount := Some (plus_1 (saveCount (this_state w)));
       o_restoreCount := Some (restoreCount (this_state w)) |} in
  let answer := (h_saveState scripted snapshot (h_toISOString scripted (host w)).2).1 in
  let w1 := (handle scripted all_services (TextInput "a") w).2 in
  let w2 := (saveState_resumed scripted answer w1).2 in
  saveCount (this_state w) = 2 ^ 53 ∧
  handle scripted all_services (TextInput "a") w = (Val tt, w1) ∧
  calls w1 = calls w ++ [SaveState snapshot] ∧
  settled answer = Resolved tt ∧
  saveState_resumed scripted answer w1 = (Val tt, w2) ∧
  saveCount (this_state w2) = 2 ^ 53 ∧
  saveCount (this_state w2) ≠ saveCount (this_state w1) + 1 ∧
  saveCount (this_state w2) ≠ saveCount (this_state w) + 1.
Proof.
  intros r w now merged snapshot answer w1 w2.
  split; [ by vm_compute | ]. split; [ by vm_compute | ].
  split; [ by vm_compute | ]. split; [ by vm_compute | ].
  split; [ by vm_compute | ]. split; [ by vm_compute | ].
  split; vm_compute; discriminate.
Qed.




End ConsumerWitnesses.

(* ===================================================================== *)
(** * More on the Consumer: every method, on every path                   *)
(* ===================================================================== *)

Section ConsumerPaths.
Import Consumer.
Context {H : Type} (ops : HostOps H) (services : Services).

#[local] Arguments consumer_config : simpl never.

(** ** Rules for running a method step by step *)

Lemma wp_bind {A B} (m : M H A) (k : A → M H B) Q w :
  wp m (λ r w', match r with
               | Val a => wp (k a) Q w'
               | Thrown e => Q (Thrown e) w'
               end) w →
  wp (m ≫= k) Q w.
Proof. unfold wp, mbind, M_bind, bind. by destruct (m w) as [[a|e] w']. Qed.

Lemma wp_try_catch {A} (m : M H A) handler Q w :
  wp m (λ r w', match r with
               | Val a => Q (Val a) w'
               | Thrown e => wp (handler e) Q w'
               end) w →
  wp (try_catch m handler) Q w.
Proof. unfold wp, try_catch. by destruct (m w) as [[a|e] w']. Qed.

Lemma wp_ret {A} (a : A) (Q : Res A → World H → Prop) w :
  Q (Val a) w → wp (mret a) Q w.
Proof. done. Qed.

Lemma wp_throw {A} e (Q : Res A → World H → Prop) w :
  Q (Thrown e) w → wp (throw e) Q w.
Proof. done. Qed.

Lemma wp_setState f (Q : Res unit → World H → Prop) w :
  Q (Val tt) {| this_state := f (this_state w); this_fields := this_fields w;
                host := host w; calls := calls w |} →
  wp (setState f) Q w.
Proof. done. Qed.

Lemma wp_read_state (Q : Res PluginStateTestState → World H → Prop) w :
  Q (Val (this_state w)) w → wp read_state Q w.
Proof. done. Qed.

Lemma wp_read_fields (Q : Res Fields → World H → Prop) w :
  Q (Val (this_fields w)) w → wp read_fields Q w.
Proof. done. Qed.

Lemma wp_write_fields f (Q : Res unit → World H → Prop) w :
  Q (Val tt) {| this_state := this_state w; this_fields := f (this_fields w);
                host := host w; calls := calls w |} →
  wp (write_fields f) Q w.
Proof. done. Qed.

Lemma wp_ask {A} (op : H → A * H) (Q : Res A → World H → Prop) w :
  Q (Val (op (host w)).1)
    {| this_state := this_state w; this_fields := this_fields w;
       host := (op (host w)).2; calls := calls w |} →
  wp (ask op) Q w.
Proof. unfold wp. by rewrite ask_run. Qed.

Lemma wp_call {A} c (op : H → A * H) (Q : Res A → World H → Prop) w :
  Q (Val (op (host w)).1) (called c (op (host w)).2 w) → wp (call c op) Q w.
Proof. unfold wp, call, called. by destruct (op (host w)). Qed.

Lemma wp_call_throwing {A} c (op : H → Res A * H) (Q : Res A → World H → Prop) w :
  Q (op (host w)).1 (called c (op (host w)).2 w) → wp (call_throwing c op) Q w.
Proof. unfold wp, call_throwing, called. by destruct (op (host w)). Qed.

Lemma wp_addDebugLog message (Q : Res unit → World H → Prop) w :
  Q (Val tt) (logged ops message w) → wp (addDebugLog ops message) Q w.
Proof. unfold wp. by rewrite addDebugLog_run. Qed.

Lemma wp_mono {A} (m : M H A) (Q Q' : Res A → World H → Prop) w :
  (∀ r w', Q r w' → Q' r w') → wp m Q w → wp m Q' w.
Proof. unfold wp. auto. Qed.

(** ** The closures given to the host *)

Lemma callbacks_only_refl (w : World H) : callbacks_only w w.
Proof. by repeat split. Qed.

Lemma callbacks_only_trans (w1 w2 w3 : World H) :
  callbacks_only w1 w2 → callbacks_only w2 w3 → callbacks_only w1 w3.
Proof.
  intros (?&?&?&?) (?&?&?&?). repeat split; try congruence. auto.
Qed.

Lemma logged_length message (w : World H) :
  (length (debugLogs (this_state (logged ops message w))) ≤ 20)%nat.
Proof.
  simpl. rewrite length_app. simpl.
  pose proof (slice_last_length 19 (debugLogs (this_state w))). lia.
Qed.

Lemma invoke_only i w :
  ∃ w', invoke ops i w = (Val tt, w') ∧ callbacks_only w w' ∧
        currentTheme (this_state w') = theme_after [i] (currentTheme (this_state w)) ∧
        (length (debugLogs (this_state w')) ≤ 20)%nat.
Proof.
  destruct i as [cb arg]. unfold invoke, theme_after. simpl.
  destruct cb.
  1: erewrite bind_val; [ | reflexivity ].
  all: rewrite addDebugLog_run; eexists; (split; [ reflexivity | ]).
  all: split; [ | split; [ reflexivity | apply logged_length ] ].
  all: repeat split; intros _; apply logged_length.
Qed.

Lemma invoke_all_only invs w :
  ∃ w', invoke_all ops invs w = (Val tt, w') ∧ callbacks_only w w' ∧
        currentTheme (this_state w') = theme_after invs (currentTheme (this_state w)).
Proof.
  revert w. induction invs as [|i invs IH]; intros w; simpl.
  - exists w. by repeat split.
  - destruct (invoke_only i w) as (w1 & E1 & C1 & T1 & _).
    destruct (IH w1) as (w2 & E2 & C2 & T2).
    exists w2. split; [ by erewrite bind_val | ].
    split; [ by eapply callbacks_only_trans | ].
    rewrite T2, T1. reflexivity.
Qed.

Lemma wp_await {A} c (op : H → Answer A * H) (Q : Res A → World H → Prop) w :
  (∀ w', callbacks_only (called c (op (host w)).2 w) w' →
         Q (match settled (op (host w)).1 with
            | Resolved a => Val a
            | Rejected e => Thrown e
            end) w') →
  wp (await ops c op) Q w.
Proof.
  intros HQ.
  destruct (invoke_all_only (dispatched (op (host w)).1)
              (called c (op (host w)).2 w)) as (w' & E & C & _).
  unfold wp, await.
  rewrite (bind_val (call c op) _ w (op (host w)).1 (called c (op (host w)).2 w)).
  2: { unfold call, called. by destruct (op (host w)). }
  erewrite bind_val; [ | exact E ].
  specialize (HQ w' C). by destruct (settled (op (host w)).1).
Qed.

Lemma invoke_host i w :
  host (invoke ops i w).2 = (h_toLocaleTimeString ops (host w)).2.
Proof.
  destruct i as [cb arg]. unfold invoke. simpl. destruct cb.
  1: erewrite bind_val; [ | reflexivity ].
  all: by rewrite addDebugLog_run.
Qed.

Lemma invoke_all_host invs w :
  host (invoke_all ops invs w).2 = after_callbacks ops invs (host w).
Proof.
  revert w. induction invs as [|i invs IH]; intros w; simpl; [ done | ].
  destruct (invoke_only i w) as (w1 & E1 & _).
  erewrite bind_val; [ | exact E1 ].
  rewrite IH. f_equal.
  change w1 with (Val tt, w1).2. rewrite <- E1. apply invoke_host.
Qed.

Lemma wp_invoke_all invs (Q : Res unit → World H → Prop) w :
  (∀ w', callbacks_only w w' →
         host w' = after_callbacks ops invs (host w) →
         Q (Val tt) w') →
  wp (invoke_all ops invs) Q w.
Proof.
  intros HQ. destruct (invoke_all_only invs w) as (w' & E & C & _).
  pose proof (invoke_all_host invs w) as Hh.
  unfold wp. rewrite E in *. by apply HQ.
Qed.

(** As [wp_await], with the state of the host in which the method
    resumes. *)
Lemma wp_await_host {A} c (op : H → Answer A * H) (Q : Res A → World H → Prop) w :
  (∀ w', callbacks_only (called c (op (host w)).2 w) w' →
         host w' = after_callbacks ops (dispatched (op (host w)).1) (op (host w)).2 →
         Q (match settled (op (host w)).1 with
            | Resolved a => Val a
            | Rejected e => Thrown e
            end) w') →
  wp (await ops c op) Q w.
Proof.
  intros HQ.
  destruct (invoke_all_only (dispatched (op (host w)).1)
              (called c (op (host w)).2 w)) as (w' & E & C & _).
  pose proof (invoke_all_host (dispatched (op (host w)).1)
                (called c (op (host w)).2 w)) as Hh.
  unfold wp, await.
  rewrite (bind_val (call c op) _ w (op (host w)).1 (called c (op (host w)).2 w)).
  2: { unfold call, called. by destruct (op (host w)). }
  erewrite bind_val; [ | exact E ].
  rewrite E in Hh. specialize (HQ w' C Hh). by destruct (settled (op (host w)).1).
Qed.

(** X17. Whatever closures the host runs, in whatever order, with
    arguments they can print (a theme, a context with its [pageId], a
    state that has a JSON text), they return, and they change nothing of
    the component but [debugLogs], kept within 20 entries, and
    [currentTheme], which ends as the argument of the last theme
    notification, if there was one. Called with [undefined] for the state
    or for the context, a hook or the page-context listener throws, and
    changes nothing at all. *)
Theorem callbacks_change_only_logs_and_theme (invs : list Invocation) (r : Reader)
    (w : World H) :
  (∃ w', invoke_all ops invs w = (Val tt, w') ∧
         set_currentTheme "" (set_debugLogs [] (this_state w'))
           = set_currentTheme "" (set_debugLogs [] (this_state w)) ∧
         this_fields w' = this_fields w ∧
         calls w' = calls w ∧
         currentTheme (this_state w') = theme_after invs (currentTheme (this_state w)) ∧
         (invs ≠ [] → (length (debugLogs (this_state w')) ≤ 20)%nat)) ∧
  (∃ e, invoke_undefined r w = (Thrown e, w)).
Proof.
  split; [ | destruct r; by eexists ].
  destruct (invoke_all_only invs w) as (w' & E & (Hs & Hf & Hc & Hlen) & Ht).
  exists w'. repeat split; try done.
  intros Hne. destruct invs as [|i invs]; [ done | ].
  simpl in E. destruct (invoke_only i w) as (w1 & E1 & _ & _ & L1).
  erewrite bind_val in E; [ | exact E1 ].
  destruct (invoke_all_only invs w1) as (w2 & E2 & (_&_&_&L2) & _).
  rewrite E2 in E. injection E as <-. auto.
Qed.

Lemma wp_elim {A} (m : M H A) (a : A) (P : World H → Prop) w :
  wp m (λ r w', r = Val a ∧ P w') w → ∃ w', m w = (Val a, w') ∧ P w'.
Proof.
  unfold wp. destruct (m w) as [r w']. simpl. intros [-> HP]. by exists w'.
Qed.

Ltac wp_step :=
  lazymatch goal with
  | |- wp (mbind _ _) _ _ => apply wp_bind
  | |- wp (try_catch _ _) _ _ => apply wp_try_catch
  | |- wp (mret _) _ _ => apply wp_ret
  | |- wp (ret _) _ _ => apply wp_ret
  | |- wp (throw _) _ _ => apply wp_throw
  | |- wp (setState _) _ _ => apply wp_setState
  | |- wp read_state _ _ => apply wp_read_state
  | |- wp read_fields _ _ => apply wp_read_fields
  | |- wp (write_fields _) _ _ => apply wp_write_fields
  | |- wp (now_iso _) _ _ => apply wp_ask
  | |- wp (now_local _) _ _ => apply wp_ask
  | |- wp (ask _) _ _ => apply wp_ask
  | |- wp (call _ _) _ _ => apply wp_call
  | |- wp (call_throwing _ _) _ _ => apply wp_call_throwing
  | |- wp (addDebugLog _ _) _ _ => apply wp_addDebugLog
  | |- wp (await _ _ _) _ _ => apply wp_await; intros ? ?
  | |- wp (invoke_all _ _) _ _ => apply wp_invoke_all; intros ? ? _
  | |- wp (call_if_set _ _) _ _ => unfold call_if_set
  end; cbn [this_state this_fields host calls called logged].

Ltac wp_steps := repeat wp_step.

Lemma callbacks_only_state (w w' : World H) :
  callbacks_only w w' →
  testData (this_state w') = testData (this_state w) ∧
  isLoading (this_state w') = isLoading (this_state w) ∧
  error (this_state w') = error (this_state w) ∧
  isInitializing (this_state w') = isInitializing (this_state w) ∧
  isStateConfigured (this_state w') = isStateConfigured (this_state w) ∧
  lastSaveTime (this_state w') = lastSaveTime (this_state w) ∧
  lastRestoreTime (this_state w') = lastRestoreTime (this_state w) ∧
  saveCount (this_state w') = saveCount (this_state w) ∧
  restoreCount (this_state w') = restoreCount (this_state w).
Proof.
  intros (Hs & _).
  repeat split;
    [ apply (f_equal testData) in Hs | apply (f_equal isLoading) in Hs
    | apply (f_equal error) in Hs | apply (f_equal isInitializing) in Hs
    | apply (f_equal isStateConfigured) in Hs | apply (f_equal lastSaveTime) in Hs
    | apply (f_equal lastRestoreTime) in Hs | apply (f_equal saveCount) in Hs
    | apply (f_equal restoreCount) in Hs ]; exact Hs.
Qed.

(** Case analysis on the way an awaited call settled. *)
Ltac wp_answer :=
  match goal with
  | |- context [settled ?x] =>
      let E := fresh "Hans" in destruct (settled x) as [?|?] eqn:E
  end; cbv beta iota.

(** Case analysis on an optional value a method branches on. *)
Ltac wp_case :=
  match goal with
  | |- wp (match ?r with Some _ => _ | None => _ end) _ _ =>
      let E := fresh "Hcase" in destruct r eqn:E
  end; cbv beta iota.

(** The awaited call settled as hypothesis [Hres] says. *)
Ltac wp_settled Hres :=
  lazymatch type of Hres with
  | ?l = _ =>
      match goal with
      | |- context [settled ?x] => change (settled x) with l
      end
  end; rewrite Hres; cbv beta iota.

(** What is known of the world in which an awaited call returned. *)
Ltac wp_returned :=
  match goal with
  | Hcb : callbacks_only _ _ |- _ =>
      let Htd := fresh "Htd" in let Hil := fresh "Hil" in
      let Her := fresh "Her" in let Hii := fresh "Hii" in
      let Hic := fresh "Hic" in let Hls := fresh "Hls" in
      let Hlr := fresh "Hlr" in let Hsc := fresh "Hsc" in
      let Hrc := fresh "Hrc" in let Hf := fresh "Hf" in
      let Hc := fresh "Hc" in let Hl := fresh "Hl" in
      destruct (callbacks_only_state _ _ Hcb)
        as (Htd & Hil & Her & Hii & Hic & Hls & Hlr & Hsc & Hrc);
      destruct Hcb as (_ & Hf & Hc & Hl);
      simpl in Htd, Hil, Her, Hii, Hic, Hls, Hlr, Hsc, Hrc, Hf, Hc, Hl
  end.

(** The text of the log an operation writes when there is no service. *)
Lemma run_without_service op w :
  pluginState services = false →
  run ops services op w =
    (Val tt,
     logged ops ("ERROR: Plugin state service not available for " +:+
                 match op with
                 | Save => "save" | Restore => "restore" | Clear => "clear"
                 end) w).
Proof.
  intros Hsvc. destruct op; unfold run, saveState, restoreState, clearState;
    rewrite Hsvc; apply addDebugLog_run.
Qed.

(** X1. Without the plugin-state service, saving, restoring and clearing
    make no call and do not throw: they write one "ERROR" debug log and
    leave every other part of the component as it is. *)
Theorem operation_without_service (op : Operation) (w : World H) :
  pluginState services = false →
  ∃ w', run ops services op w = (Val tt, w') ∧
        calls w' = calls w ∧
        this_fields w' = this_fields w ∧
        same_but_logs (this_state w) (this_state w') ∧
        ∃ t, last (debugLogs (this_state w')) =
             Some (logEntry t
                     ("ERROR: Plugin state service not available for " +:+
                      match op with
                      | Save => "save" | Restore => "restore" | Clear => "clear"
                      end)).
Proof.
  intros Hsvc. eexists. split; [ by apply run_without_service | ].
  repeat split. eexists. apply last_snoc.
Qed.

(** X2. With the service present, each of the three operations calls it
    exactly once, whether the call resolves or is rejected (there is no
    retry), does not throw, and ends with [isLoading] false; it changes
    neither the private fields nor [isInitializing] nor
    [isStateConfigured]. *)
Theorem operation_calls_service_once (op : Operation) (w : World H) :
  pluginState services = true →
  ∃ w', run ops services op w = (Val tt, w') ∧
        calls w' = calls w ++ [request op w] ∧
        isLoading (this_state w') = false ∧
        this_fields w' = this_fields w ∧
        isInitializing (this_state w') = isInitializing (this_state w) ∧
        isStateConfigured (this_state w') = isStateConfigured (this_state w).
Proof.
  intros Hsvc. apply wp_elim.
  destruct op; unfold run, saveState, restoreState, clearState;
    rewrite Hsvc; cbn [negb]; wp_steps; wp_answer; wp_steps.
  all: try (wp_case; wp_steps).
  all: wp_returned; simpl; by rewrite ?Hf, ?Hc, ?Hii, ?Hic.
Qed.

Lemma no_rejection_resolved {A} (a : Answer A) :
  rejection a = None → ∃ x, settled a = Resolved x.
Proof. unfold rejection. destruct (settled a); naive_solver. Qed.

(** X3. When the service resolves [clearState], the component is back to
    its defaults: [testData] is the default data stamped with the time
    the clock gives when the method resumes (after the call, and after
    the closures the host ran for it), both counters are 0, both times
    are [null], so that the status panel shows "Never" for the last save
    and the last restore, and [isLoading] is false. The [error] it showed
    before is still there. *)
Theorem clear_resets_to_defaults (w : World H) :
  pluginState services = true →
  settled (h_clearState ops (host w)).1 = Resolved tt →
  let resumed_in :=
    after_callbacks ops (dispatched (h_clearState ops (host w)).1)
                    (h_clearState ops (host w)).2 in
  ∃ w', clearState ops services w = (Val tt, w') ∧
        testData (this_state w') = default_testData (h_toISOString ops resumed_in).1 ∧
        saveCount (this_state w') = 0 ∧
        restoreCount (this_state w') = 0 ∧
        lastSaveTime (this_state w') = None ∧
        lastRestoreTime (this_state w') = None ∧
        isLoading (this_state w') = false ∧
        error (this_state w') = error (this_state w) ∧
        ∀ p, shown_lastSave (renderContent p (this_state w')) = "Never" ∧
             shown_lastRestore (renderContent p (this_state w')) = "Never".
Proof.
  intros Hsvc Hres resumed_in. apply wp_elim.
  unfold clearState. rewrite Hsvc. cbn [negb].
  do 4 wp_step. apply wp_await_host. intros w1 Hcb Hhost.
  cbn [this_state this_fields host calls called logged] in *.
  wp_settled Hres. wp_steps.
  wp_returned. simpl. rewrite Her, Hhost.
  split; [ done | ]. split; [ done | done ].
Qed.

(** X4. An operation the service resolves leaves [error] as it was: once
    a failure is shown, later successful saves, restores and clears do
    not remove it, and [render] keeps showing the error view with the
    old message. *)
Theorem success_keeps_the_error (op : Operation) (w : World H) (p : Props) :
  pluginState services = true →
  service_rejection ops op w = None →
  let w' := (run ops services op w).2 in
  error (this_state w') = error (this_state w) ∧
  (isInitializing (this_state w) = false →
   error (this_state w) ≠ "" →
   body (render p (this_state w')) = ShowError (error (this_state w))).
Proof.
  intros Hsvc Hres w'.
  assert (error (this_state w') = error (this_state w) ∧
          isInitializing (this_state w') = isInitializing (this_state w))
    as [Herr Hinit].
  { subst w'. change (wp (run ops services op)
      (λ _ w', error (this_state w') = error (this_state w) ∧
               isInitializing (this_state w') = isInitializing (this_state w)) w).
    destruct op; simpl in Hres; apply no_rejection_resolved in Hres as [x Hres];
      unfold run, saveState, restoreState, clearState;
      rewrite Hsvc; cbn [negb]; wp_steps; wp_settled Hres; wp_steps.
    all: try (wp_case; wp_steps).
    all: wp_returned; simpl; by rewrite ?Her, ?Hii. }
  split; [ exact Herr | ].
  intros Hi Hne. unfold render. simpl. rewrite Hinit, Hi, Herr.
  by destruct (error (this_state w)).
Qed.

(** X5. After a rejected operation on an initialised component [render]
    shows the error view with the failure text, in place of the form;
    the button "Clear Error" brings the content view back, with the data
    as the failed operation left them. *)
Theorem rejection_is_shown_until_cleared (op : Operation) (w : World H)
    (e : string) (p : Props) :
  pluginState services = true →
  service_rejection ops op w = Some e →
  isInitializing (this_state w) = false →
  let w1 := (run ops services op w).2 in
  let w2 := (clearError w1).2 in
  body (render p (this_state w1)) = ShowError (failure_text op +:+ e) ∧
  body (render p (this_state w2)) = ShowContent (renderContent p (this_state w2)) ∧
  testData (this_state w2) = testData (this_state w) ∧
  saveCount (this_state w2) = saveCount (this_state w) ∧
  restoreCount (this_state w2) = restoreCount (this_state w).
Proof.
  intros Hsvc Hrej Hi w1 w2.
  assert (error (this_state w1) = failure_text op +:+ e ∧
          isInitializing (this_state w1) = false ∧
          testData (this_state w1) = testData (this_state w) ∧
          saveCount (this_state w1) = saveCount (this_state w) ∧
          restoreCount (this_state w1) = restoreCount (this_state w))
    as (Herr & Hinit & Htd & Hsc & Hrc).
  { subst w1. change (wp (run ops services op)
      (λ _ w', error (this_state w') = failure_text op +:+ e ∧
               isInitializing (this_state w') = false ∧
               testData (this_state w') = testData (this_state w) ∧
               saveCount (this_state w') = saveCount (this_state w) ∧
               restoreCount (this_state w') = restoreCount (this_state w)) w).
    destruct op; simpl in Hrej; apply rejection_settled in Hrej;
      unfold run, saveState, restoreState, clearState;
      rewrite Hsvc; cbn [negb]; wp_steps; wp_settled Hrej; wp_steps.
    all: wp_returned; simpl; by rewrite ?Hii, ?Htd, ?Hsc, ?Hrc. }
  subst w2. unfold render, clearError. simpl. rewrite Hinit, Herr.
  repeat split; try done. by destruct op.
Qed.

Lemma zero_or_itself z : (if z =? 0 then 0 else z) = z.
Proof. by destruct (Z.eqb_spec z 0). Qed.


(** ** Form changes *)

Lemma handle_data c w :
  let w1 := updated ops c w in
  ∃ w', handle ops services c w = (Val tt, w') ∧
        testData (this_state w') = testData (this_state w1) ∧
        saveCount (this_state w') = saveCount (this_state w) ∧
        restoreCount (this_state w') = restoreCount (this_state w) ∧
        calls w' =
          calls w ++ (if pluginState services
                      then [SaveState (stateToSave (this_state w1))]
                      else []).
Proof.
  intros w1. eexists. split; [ apply handle_run | ].
  rewrite saveState_started_run. fold w1.
  destruct (pluginState services); simpl; by rewrite ?app_nil_r.
Qed.

Lemma saveState_resumed_data answer w :
  ∃ w', saveState_resumed ops answer w = (Val tt, w') ∧
        testData (this_state w') = testData (this_state w) ∧
        restoreCount (this_state w') = restoreCount (this_state w) ∧
        saveCount (this_state w') =
          (if resolves answer then plus_1 (saveCount (this_state w))
           else saveCount (this_state w)) ∧
        isLoading (this_state w') = false ∧
        calls w' = calls w.
Proof.
  destruct (saveState_resumed_run ops answer w)
    as (w1 & (Htd & Hsc & Hrc & _ & _ & Hc) & E).
  eexists. split; [ exact E | ].
  unfold resolves. destruct (settled answer) as [[]|e]; simpl;
    by rewrite Htd, Hsc, Hrc, Hc.
Qed.

(** X7. A change through a form control is applied to [testData] at once
    and whatever becomes of the auto-save: the handler returns with the
    edit made, [saveCount] as before, and the service called once if it
    is there and not at all if it is absent. When the promise of the
    save settles, however late and in whatever state the component is by
    then, [testData] is kept as it is at that moment (a rejected save
    rolls nothing back), the service is not called again, and
    [saveCount] is counted up, once, exactly when the save resolved. *)
Theorem edit_is_kept_whatever_the_save (c : FormChange) (w : World H) :
  let now := (h_toISOString ops (host w)).1 in
  let w1 := updated ops c w in
  ∃ w', handle ops services c w = (Val tt, w') ∧
        testData (this_state w') = changed c (testData (this_state w)) now ∧
        saveCount (this_state w') = saveCount (this_state w) ∧
        restoreCount (this_state w') = restoreCount (this_state w) ∧
        calls w' =
          calls w ++ (if pluginState services
                      then [SaveState (stateToSave (this_state w1))]
                      else []) ∧
        ∀ (answer : Answer unit) (later : World H),
          ∃ w'', saveState_resumed ops answer later = (Val tt, w'') ∧
                 testData (this_state w'') = testData (this_state later) ∧
                 restoreCount (this_state w'') = restoreCount (this_state later) ∧
                 saveCount (this_state w'') =
                   (if resolves answer then plus_1 (saveCount (this_state later))
                    else saveCount (this_state later)) ∧
                 isLoading (this_state w'') = false ∧
                 calls w'' = calls later.
Proof.
  intros now w1.
  destruct (handle_data c w) as (w' & E & Htd & Hsc & Hrc & Hc).
  exists w'. repeat split; try done. apply saveState_resumed_data.
Qed.

Lemma perform_all_app actions1 actions2 (w : World H) :
  perform_all ops services (actions1 ++ actions2) w
  = perform_all ops services actions2 (perform_all ops services actions1 w).
Proof.
  revert w. induction actions1 as [|a actions1 IH]; intros w; simpl; [ done | ].
  apply IH.
Qed.

Lemma meanwhile_keeps_data actions (w : World H) :
  forallb happens_meanwhile actions = true →
  testData (this_state (perform_all ops services actions w))
  = testData (this_state w).
Proof.
  revert w. induction actions as [|a actions IH]; intros w; simpl; [ done | ].
  intros [Ha Hrest]%andb_prop. rewrite (IH _ Hrest).
  destruct a as [| |op|c|i| |r|answer]; try discriminate Ha; unfold perform.
  - destruct (invoke_only i w) as (w' & E & Hcb & _).
    rewrite E. by destruct (callbacks_only_state _ _ Hcb) as (Htd & _).
  - by destruct r.
  - destruct (saveState_resumed_data answer w) as (w' & E & Htd & _).
    by rewrite E.
Qed.

(** X8. Pressing "+" and then "-" brings a counter that is a safe
    integer back to where it was and leaves the text, the checkbox and
    the selection alone, whatever the host notifies meanwhile and
    whenever and however the two auto-saves settle: between the two
    presses or after them, resolved or rejected. *)
Theorem increment_then_decrement (w : World H) (between after : list Action) :
  isSafeInteger (counter (testData (this_state w))) = true →
  forallb happens_meanwhile between = true →
  forallb happens_meanwhile after = true →
  let w1 := (handle ops services Increment w).2 in
  let w2 := perform_all ops services (between ++ Change Decrement :: after) w1 in
  counter (testData (this_state w1)) = counter (testData (this_state w)) + 1 ∧
  counter (testData (this_state w2)) = counter (testData (this_state w)) ∧
  textInput (testData (this_state w2)) = textInput (testData (this_state w)) ∧
  checkboxValue (testData (this_state w2)) = checkboxValue (testData (this_state w)) ∧
  selectValue (testData (this_state w2)) = selectValue (testData (this_state w)).
Proof.
  intros Hsafe Hbetween Hafter w1 w2.
  destruct (handle_data Increment w) as (w1' & E1 & Htd1 & _).
  assert (w1 = w1') as -> by (subst w1; by rewrite E1).
  subst w2. rewrite perform_all_app. cbn [perform_all perform].
  rewrite (meanwhile_keeps_data after _ Hafter).
  pose proof (meanwhile_keeps_data between w1' Hbetween) as Htd2.
  destruct (handle_data Decrement (perform_all ops services between w1'))
    as (w3 & E3 & Htd3 & _).
  rewrite E3. cbn [snd]. rewrite Htd3. simpl. rewrite Htd2, Htd1. simpl.
  rewrite (minus_1_plus_1 _ Hsafe), (plus_1_safe _ Hsafe). by repeat split.
Qed.

(** X19. Auto-saves overlap: when a second change is made before the
    save of the first has settled, the snapshot of the second save
    carries the same [saveCount] as that of the first, one count above
    the [saveCount] from before the two changes, which no save has
    updated yet, and each snapshot carries the [testData] of its change.
    Once both saves have resolved, [saveCount] has been counted up
    twice, and [testData] is that of the second change. *)
Theorem overlapping_auto_saves (c1 c2 : FormChange) (w : World H)
    (answer1 answer2 : Answer unit) :
  pluginState services = true →
  settled answer1 = Resolved tt →
  settled answer2 = Resolved tt →
  let w1 := (handle ops services c1 w).2 in
  let w2 := (handle ops services c2 w1).2 in
  let w3 := (saveState_resumed ops answer1 w2).2 in
  let w4 := (saveState_resumed ops answer2 w3).2 in
  (∃ s1 s2, calls w2 = calls w ++ [SaveState s1; SaveState s2] ∧
            o_saveCount s1 = Some (plus_1 (saveCount (this_state w))) ∧
            o_saveCount s2 = Some (plus_1 (saveCount (this_state w))) ∧
            o_testData s1 = Some (testData (this_state w1)) ∧
            o_testData s2 = Some (testData (this_state w2))) ∧
  saveCount (this_state w2) = saveCount (this_state w) ∧
  saveCount (this_state w4) = plus_1 (plus_1 (saveCount (this_state w))) ∧
  testData (this_state w4) = testData (this_state w2).
Proof.
  intros Hsvc Hres1 Hres2 w1 w2 w3 w4.
  destruct (handle_data c1 w) as (w1' & E1 & Htd1 & Hsc1 & _ & Hc1).
  assert (w1 = w1') as -> by (subst w1; by rewrite E1).
  destruct (handle_data c2 w1') as (w2' & E2 & Htd2 & Hsc2 & _ & Hc2).
  assert (w2 = w2') as -> by (subst w2; by rewrite E2).
  destruct (saveState_resumed_data answer1 w2') as (w3' & E3 & Htd3 & _ & Hsc3 & _).
  assert (w3 = w3') as -> by (subst w3; by rewrite E3).
  destruct (saveState_resumed_data answer2 w3') as (w4' & E4 & Htd4 & _ & Hsc4 & _).
  assert (w4 = w4') as -> by (subst w4; by rewrite E4).
  unfold resolves in Hsc3, Hsc4. rewrite Hres1 in Hsc3. rewrite Hres2 in Hsc4.
  rewrite Hsvc in Hc1, Hc2.
  split.
  { eexists _, _. split; [ by rewrite Hc2, Hc1, <- app_assoc | ].
    simpl in Htd1, Htd2 |- *. rewrite Hsc1, Htd2, Htd1. by repeat split. }
  rewrite Hsc4, Hsc3, Htd4, Htd3, Hsc2, Hsc1. by repeat split.
Qed.

(** ** Mounting *)

(** Case analysis on a call that may throw. *)
Ltac wp_thrown :=
  match goal with
  | |- match ?r with Val _ => _ | Thrown _ => _ end =>
      let E := fresh "Hcall" in destruct r eqn:E
  end; cbv beta iota.

(** A method, with the services it finds fixed, path by path. *)
Ltac wp_when :=
  match goal with
  | |- wp (when ?b _) _ _ =>
      let E := fresh "Hwhen" in destruct b eqn:E; cbn [when]
  end.

Ltac wp_paths :=
  repeat first
    [ progress cbn [theme pageContext pluginState negb when call_if_set]
    | wp_step | wp_answer | wp_case | wp_thrown | wp_when ].

Lemma wp_initializeServices (Q : Res unit → World H → Prop) w :
  (∀ w', initialized services w w' → Q (Val tt) w') →
  wp (initializeServices ops services) Q w.
Proof.
  intros HQ.
  assert (wp (initializeServices ops services)
            (λ r w', r = Val tt ∧ initialized services w w') w) as Hwp.
  { unfold initializeServices, initialized, initialize_calls.
    destruct (theme services), (pageContext services); wp_paths; simpl;
      rewrite <- ?app_assoc, ?app_nil_r; repeat split; try done;
      intros; rewrite length_app; simpl;
      match goal with
      | |- context [slice_last 19 ?l] => pose proof (slice_last_length 19 l)
      end; lia. }
  apply wp_elim in Hwp as (w' & E & Hinit).
  unfold wp. rewrite E. by apply HQ.
Qed.

(** What is known of the world in which [initializeServices] ended. *)
Ltac wp_initialized :=
  apply wp_initializeServices;
  let w1 := fresh "w1" in
  let Hs := fresh "Hinit" in
  intros w1 Hs;
  let Hst := fresh "Hstate" in let Hl := fresh "Hlistener" in
  let Hpc := fresh "Hpage" in let Hsv := fresh "Hsave" in
  let Hrs := fresh "Hrestore" in let Hcl := fresh "Hclear" in
  let Hc := fresh "Hcalls" in let Hb := fresh "Hbound" in
  destruct Hs as (Hst & Hl & Hpc & Hsv & Hrs & Hcl & Hc & Hb);
  cbn [this_state this_fields host calls].

Lemma initialized_state (s s' : PluginStateTestState) :
  set_currentTheme "" (set_debugLogs [] s') = set_currentTheme "" (set_debugLogs [] s) →
  testData s' = testData s ∧ isLoading s' = isLoading s ∧ error s' = error s ∧
  isInitializing s' = isInitializing s ∧
  isStateConfigured s' = isStateConfigured s ∧
  saveCount s' = saveCount s ∧ restoreCount s' = restoreCount s.
Proof.
  intros Hs.
  repeat split;
    [ apply (f_equal testData) in Hs | apply (f_equal isLoading) in Hs
    | apply (f_equal error) in Hs | apply (f_equal isInitializing) in Hs
    | apply (f_equal isStateConfigured) in Hs | apply (f_equal saveCount) in Hs
    | apply (f_equal restoreCount) in Hs ]; exact Hs.
Qed.

(** X9. When the service accepts the configuration and then rejects
    [getState], [restoreState] catches the rejection itself, and
    [componentDidMount] goes on as after a restore that succeeded: it
    ends with "Component initialized successfully" as its last debug
    log, [isStateConfigured] true and [isInitializing] false, while
    [error] holds "Failed to restore state: " and the rejection, which
    [render] shows in the error view; the persisted fields are as
    before. *)
Theorem mount_reports_a_rejected_restore (w : World H) (e : string) (p : Props) :
  pluginState services = true →
  (∀ c h, (h_configure ops c h).1 = Val tt) →
  (∀ h, settled (h_getState ops h).1 = Rejected e) →
  ∃ w', componentDidMount ops services w = (Val tt, w') ∧
        error (this_state w') = "Failed to restore state: " +:+ e ∧
        body (render p (this_state w')) = ShowError ("Failed to restore state: " +:+ e) ∧
        (∃ t, last (debugLogs (this_state w')) =
              Some (logEntry t "Component initialized successfully")) ∧
        isInitializing (this_state w') = false ∧
        isLoading (this_state w') = false ∧
        isStateConfigured (this_state w') = true ∧
        testData (this_state w') = testData (this_state w) ∧
        saveCount (this_state w') = saveCount (this_state w) ∧
        restoreCount (this_state w') = restoreCount (this_state w).
Proof.
  intros Hsvc Hcfg Hget. apply wp_elim.
  unfold componentDidMount. apply wp_try_catch, wp_bind. wp_initialized.
  apply initialized_state in Hstate as (Htd0 & _ & _ & _ & _ & Hsc0 & Hrc0).
  unfold configurePluginState, restoreState. rewrite Hsvc. cbn [negb]. wp_steps.
  rewrite Hcfg. cbv beta iota. wp_steps.
  rewrite Hget. cbv beta iota. wp_steps.
  wp_returned. simpl. rewrite Htd, Hsc, Hrc.
  split; [ done | ]. split; [ done | ]. split; [ done | ].
  split; [ eexists; apply last_snoc | ]. by repeat split.
Qed.

(** X10. Without the plugin-state service [componentDidMount] ends in its
    [catch] block: [error] is "Failed to initialize plugin state test",
    the last debug log tells that the service is not available,
    [isStateConfigured] and the persisted fields are as before, and no
    call goes to the absent service; the theme and page-context services
    that are present have been initialised all the same. *)
Theorem mount_without_plugin_state (w : World H) :
  pluginState services = false →
  ∃ w', componentDidMount ops services w = (Val tt, w') ∧
        error (this_state w') = "Failed to initialize plugin state test" ∧
        (∃ t, last (debugLogs (this_state w')) =
              Some (logEntry t
                "Initialization failed: Error: Plugin state service not available")) ∧
        isStateConfigured (this_state w') = isStateConfigured (this_state w) ∧
        testData (this_state w') = testData (this_state w) ∧
        saveCount (this_state w') = saveCount (this_state w) ∧
        restoreCount (this_state w') = restoreCount (this_state w) ∧
        calls w' = calls w ++ initialize_calls services ∧
        saveStateUnsubscribe (this_fields w') = saveStateUnsubscribe (this_fields w) ∧
        restoreStateUnsubscribe (this_fields w')
          = restoreStateUnsubscribe (this_fields w) ∧
        clearStateUnsubscribe (this_fields w') = clearStateUnsubscribe (this_fields w).
Proof.
  intros Hsvc. apply wp_elim.
  unfold componentDidMount. apply wp_try_catch, wp_bind. wp_initialized.
  apply initialized_state in Hstate as (Htd & _ & _ & _ & Hic & Hsc & Hrc).
  unfold configurePluginState. rewrite Hsvc. wp_paths. simpl.
  split; [ done | ]. split; [ done | ].
  split; [ eexists; apply last_snoc | ]. by repeat split.
Qed.

(** X11. When [configure] throws, [componentDidMount] stops there: none of
    [onSave], [onRestore], [onClear] is called, so no hook is left
    registered, [getState] is not called, [isStateConfigured] is as
    before, and the failure is reported in [error] and in the last debug
    log. *)
Theorem mount_with_refused_configuration (w : World H) (e : string) :
  pluginState services = true →
  (∀ c h, (h_configure ops c h).1 = Thrown e) →
  ∃ w', componentDidMount ops services w = (Val tt, w') ∧
        (∃ now, calls w' = calls w ++ initialize_calls services ++
                           [Configure (consumer_config now)]) ∧
        error (this_state w') = "Failed to initialize plugin state test" ∧
        (∃ t, last (debugLogs (this_state w')) =
              Some (logEntry t ("Initialization failed: " +:+ e))) ∧
        isStateConfigured (this_state w') = isStateConfigured (this_state w) ∧
        saveStateUnsubscribe (this_fields w') = saveStateUnsubscribe (this_fields w) ∧
        restoreStateUnsubscribe (this_fields w')
          = restoreStateUnsubscribe (this_fields w) ∧
        clearStateUnsubscribe (this_fields w') = clearStateUnsubscribe (this_fields w).
Proof.
  intros Hsvc Hcfg. apply wp_elim.
  unfold componentDidMount. apply wp_try_catch, wp_bind. wp_initialized.
  apply initialized_state in Hstate as (_ & _ & _ & _ & Hic & _).
  unfold configurePluginState. rewrite Hsvc. cbn [negb]. wp_steps.
  rewrite Hcfg. cbv beta iota. wp_steps. simpl.
  split; [ done | ]. split.
  { eexists. by rewrite Hcalls, <- app_assoc. }
  split; [ done | ]. split; [ eexists; apply last_snoc | ]. by repeat split.
Qed.


(** ** What holds between any two actions *)

Lemma initialize_calls_on_present :
  Forall (λ c, on_present services c = true) (initialize_calls services).
Proof.
  unfold initialize_calls.
  destruct services as [[] [] ?]; simpl; repeat constructor.
Qed.

(** Closing a goal on the invariant once the path is fixed. *)
Ltac settle_leaf :=
  first
    [ done
    | assumption
    | apply initialize_calls_on_present
    | simpl; rewrite length_app; simpl;
      match goal with
      | |- context [slice_last 19 ?l] => pose proof (slice_last_length 19 l)
      end; lia
    | intros; simpl in *;
      destruct (theme services), (pageContext services), (pluginState services);
      simpl in *; intuition congruence ].

Ltac settle :=
  unfold settled_component, fields_of_present in *;
  cbn [this_state this_fields host calls logged called] in *;
  repeat match goal with
         | H : _ ∧ _ |- _ => destruct H
         end;
  repeat match goal with
         | Hx : this_fields ?x = _ |- context [this_fields ?x] => rewrite Hx
         | Hx : calls ?x = _ |- context [calls ?x] => rewrite Hx
         end;
  repeat match goal with
         | |- _ ∧ _ => split
         | |- Forall _ (_ ++ _) => apply Forall_app
         | |- Forall _ (_ :: _) => apply Forall_cons
         | |- Forall _ [] => apply Forall_nil
         end;
  settle_leaf.

Lemma perform_settled a w :
  settled_component services w →
  wp (perform ops services a) (λ _ w', settled_component services w') w.
Proof.
  intros Hinv. destruct a as [| |op|c|i| |r|answer]; unfold perform.
  - unfold componentDidMount. apply wp_try_catch, wp_bind. wp_initialized.
    unfold configurePluginState, restoreState.
    destruct (pluginState services) eqn:Hps; wp_paths.
    all: try wp_returned.
    all: settle.
  - unfold componentWillUnmount, cleanupServices. wp_paths. all: settle.
  - destruct op; unfold run, saveState, restoreState, clearState;
      destruct (pluginState services) eqn:Hps; wp_paths.
    all: try wp_returned.
    all: settle.
  - unfold wp. rewrite handle_run. cbn [snd]. rewrite saveState_started_run.
    cbn [snd]. unfold requested, request, loading, updated.
    destruct (pluginState services) eqn:Hps; settle.
  - destruct (invoke_only i w) as (w' & E & Hcb & _ & Hlen).
    unfold wp. rewrite E. simpl.
    wp_returned. settle.
  - unfold clearError. wp_paths. settle.
  - by destruct r.
  - unfold saveState_resumed. wp_paths.
    all: try wp_returned.
    all: settle.
Qed.

Lemma new_component_settled h :
  settled_component services (new_component ops h).
Proof.
  unfold new_component. destruct (h_toISOString ops h) as [now h'].
  unfold settled_component, fields_of_present. simpl.
  repeat split; try done; lia.
Qed.

Lemma perform_all_settled actions w :
  settled_component services w →
  settled_component services (perform_all ops services actions w).
Proof.
  revert w. induction actions as [|a actions IH]; intros w Hinv; simpl; [ done | ].
  apply IH. apply (perform_settled a w Hinv).
Qed.

(** X13. Whatever happens to a component after its construction
    (mounting, unmounting, button presses, form changes, calls of its
    closures by the host with an argument or with [undefined],
    auto-saves settling early or late, resolved or rejected, all of it
    in any number and order), [debugLogs] never holds more than 20
    entries. *)
Theorem debug_log_stays_bounded (actions : list Action) (h : H) :
  let w := perform_all ops services actions (new_component ops h) in
  (length (debugLogs (this_state w)) ≤ 20)%nat.
Proof.
  intros w.
  assert (settled_component services w) as (Hlen & _)
    by apply perform_all_settled, new_component_settled.
  exact Hlen.
Qed.

(** X14. A service that is absent from [props.services] is never called:
    whatever happens to a component after its construction, every call
    in its trace is on a service that is present, and the fields hold no
    listener or unsubscribe function of an absent service. *)
Theorem absent_services_are_never_called (actions : list Action) (h : H) :
  let w := perform_all ops services actions (new_component ops h) in
  Forall (λ c, on_present services c = true) (calls w) ∧
  fields_of_present services (this_fields w).
Proof.
  intros w.
  assert (settled_component services w) as (_ & Hfields & Hcalls)
    by apply perform_all_settled, new_component_settled.
  by split.
Qed.

(** ** Unmounting *)

(** X15. [cleanupServices] changes nothing of the state but [debugLogs]
    and keeps the listener and the unsubscribe functions in the fields:
    run a second time, it releases every one of them a second time. *)
Theorem cleanup_keeps_the_handles (w : World H) :
  let w1 := (cleanupServices ops services w).2 in
  let w2 := (cleanupServices ops services w1).2 in
  this_fields w1 = this_fields w ∧
  same_but_logs (this_state w) (this_state w1) ∧
  calls w1 = calls w ++ releases_with (theme services) (this_fields w) ∧
  calls w2 = calls w ++ releases_with (theme services) (this_fields w)
                     ++ releases_with (theme services) (this_fields w).
Proof.
  intros w1 w2.
  assert (wp (cleanupServices ops services)
            (λ _ w', this_fields w' = this_fields w ∧
                     same_but_logs (this_state w) (this_state w') ∧
                     calls w' = calls w ++
                       releases_with (theme services) (this_fields w)) w)
    as (Hf1 & Hs1 & Hc1).
  { unfold cleanupServices, releases_with. wp_paths.
    all: simpl; rewrite <- ?app_assoc, ?app_nil_r; simpl.
    all: destruct (this_fields w); simpl in *; simplify_eq; rewrite ?Hwhen.
    all: repeat split; try reflexivity;
      destruct (theme services); simpl; by rewrite ?app_nil_r. }
  destruct (cleanupServices_run ops services w1) as (w2' & E2 & Hc2 & _).
  assert (w2 = w2') as -> by (subst w2; by rewrite E2).
  fold w1 in Hf1, Hs1, Hc1.
  split; [ done | ]. split; [ done | ]. split; [ done | ].
  by rewrite Hc2, Hf1, Hc1, <- app_assoc.
Qed.

(** ** The hooks *)

Lemma string_length_append (a b : string) :
  String.length (a +:+ b) = (String.length a + String.length b)%nat.
Proof. induction a as [|c a IH]; simpl; [ done | ]. by rewrite IH. Qed.

Lemma substring_0_length n (s : string) :
  (String.length (substring 0 n s) ≤ n)%nat.
Proof.
  revert s. induction n as [|n IH]; intros [|c s]; simpl; try lia.
  specialize (IH s). lia.
Qed.

Lemma substring_0_all n (s : string) :
  (String.length s ≤ n)%nat → substring 0 n s = s.
Proof.
  revert s. induction n as [|n IH]; intros [|c s]; simpl; try done; try lia.
  intros Hlen. f_equal. apply IH. lia.
Qed.

Lemma substring_0_split n (s : string) :
  ∃ rest, s = substring 0 n s +:+ rest ∧
          String.length (substring 0 n s) = Nat.min n (String.length s).
Proof.
  revert s. induction n as [|n IH]; intros [|c s]; simpl.
  - by exists "".
  - by exists (String c s).
  - by exists "".
  - destruct (IH s) as (rest & Hs & Hlen). exists rest.
    split; [ | by rewrite Hlen ].
    change (String c s = String c (substring 0 n s +:+ rest)). by rewrite <- Hs.
Qed.

(** X16. The debug log that the save hook and the restore hook write for
    a state whose JSON text is made of ASCII characters is bounded
    whatever the size of the state: its message is the prefix, the first
    100 characters of the JSON text (the whole text if it has fewer), and
    "...", 119 characters at most. *)
Theorem hook_log_is_bounded (cb : Callback) (json_text : string) (w : World H) :
  cb = SaveHook ∨ cb = RestoreHook →
  is_ascii_text json_text →
  let w' := (invoke ops {| inv_callback := cb; inv_arg := json_text |} w).2 in
  let t := (h_toLocaleTimeString ops (host w)).1 in
  let prefix := if cb is SaveHook then "State saved: " else "State restored: " in
  ∃ shown rest,
    last (debugLogs (this_state w')) = Some (logEntry t (prefix +:+ shown +:+ "...")) ∧
    json_text = shown +:+ rest ∧
    String.length shown = Nat.min 100 (String.length json_text) ∧
    (String.length (prefix +:+ shown +:+ "...") ≤ 119)%nat.
Proof.
  intros Hcb _ w' t prefix.
  destruct (substring_0_split 100 json_text) as (rest & Hsplit & Hlen).
  exists (substring 0 100 json_text), rest.
  split; [ | split; [ exact Hsplit | split; [ exact Hlen | ] ] ].
  - subst w' prefix. unfold invoke. simpl.
    destruct Hcb as [-> | ->]; rewrite addDebugLog_run; apply last_snoc.
  - pose proof (substring_0_length 100 json_text) as Hbound.
    rewrite !string_length_append.
    subst prefix. destruct Hcb as [-> | ->]; simpl; lia.
Qed.

(** ** The theme *)

(** X18. [initializeServices] takes the theme from the host: with the
    theme service present [currentTheme] becomes what [getCurrentTheme]
    returns, without it [currentTheme] stays as it is; a later theme
    notification replaces it by the theme notified. *)
Theorem theme_follows_the_host (w : World H) (t : string) :
  let w1 := (initializeServices ops services w).2 in
  let w2 := (invoke ops {| inv_callback := ThemeChangeListener; inv_arg := t |} w1).2 in
  currentTheme (this_state w1) =
    (if theme services then (h_getCurrentTheme ops (host w)).1
     else currentTheme (this_state w)) ∧
  currentTheme (this_state w2) = t.
Proof.
  intros w1 w2. split.
  - subst w1. change (wp (initializeServices ops services)
      (λ _ w', currentTheme (this_state w') =
               (if theme services then (h_getCurrentTheme ops (host w)).1
                else currentTheme (this_state w))) w).
    unfold initializeServices.
    destruct (theme services), (pageContext services); by wp_paths.
  - destruct (invoke_only {| inv_callback := ThemeChangeListener; inv_arg := t |} w1)
      as (w2' & E & _ & Ht & _).
    subst w2. by rewrite E.
Qed.

End ConsumerPaths.

Section ConsumerPathsWitnesses.
Import Consumer.

Lemma operation_without_service_witness :
  let w := new_component scripted (accepting None) in
  pluginState no_plugin_state = false ∧
  ∃ w', run scripted no_plugin_state Save w = (Val tt, w') ∧
        calls w' = calls w ∧
        this_fields w' = this_fields w ∧
        same_but_logs (this_state w) (this_state w') ∧
        ∃ t, last (debugLogs (this_state w')) =
             Some (logEntry t
                     ("ERROR: Plugin state service not available for " +:+ "save")).
Proof.
  intros w. split; [ reflexivity | ].
  apply (operation_without_service scripted no_plugin_state Save w). reflexivity.
Defined.

Lemma operation_calls_service_once_witness :
  let w := new_component scripted (rejecting "offline") in
  pluginState all_services = true ∧
  ∃ w', run scripted all_services Restore w = (Val tt, w') ∧
        calls w' = calls w ++ [request Restore w] ∧
        isLoading (this_state w') = false ∧
        this_fields w' = this_fields w ∧
        isInitializing (this_state w') = isInitializing (this_state w) ∧
        isStateConfigured (this_state w') = isStateConfigured (this_state w).
Proof.
  intros w. split; [ reflexivity | ].
  apply (operation_calls_service_once scripted all_services Restore w). reflexivity.
Defined.

Lemma clear_resets_to_defaults_witness :
  let w := new_component scripted (accepting None) in
  let resumed_in :=
    after_callbacks scripted (dispatched (h_clearState scripted (host w)).1)
                    (h_clearState scripted (host w)).2 in
  pluginState all_services = true ∧
  settled (h_clearState scripted (host w)).1 = Resolved tt ∧
  ∃ w', clearState scripted all_services w = (Val tt, w') ∧
        testData (this_state w')
          = default_testData (h_toISOString scripted resumed_in).1 ∧
        saveCount (this_state w') = 0 ∧
        restoreCount (this_state w') = 0 ∧
        lastSaveTime (this_state w') = None ∧
        lastRestoreTime (this_state w') = None ∧
        isLoading (this_state w') = false ∧
        error (this_state w') = error (this_state w) ∧
        ∀ p, shown_lastSave (renderContent p (this_state w')) = "Never" ∧
             shown_lastRestore (renderContent p (this_state w')) = "Never".
Proof.
  intros w resumed_in. split; [ reflexivity | ]. split; [ reflexivity | ].
  apply (clear_resets_to_defaults scripted all_services w); reflexivity.
Defined.

Lemma success_keeps_the_error_witness :
  let w0 := new_component scripted (rejecting "offline") in
  let w := {| this_state :=
                set_isInitializing false (this_state (run scripted all_services Save w0).2);
              this_fields := initial_fields;
              host := accepting None; calls := [] |} in
  let w' := (run scripted all_services Save w).2 in
  pluginState all_services = true ∧
  service_rejection scripted Save w = None ∧
  error (this_state w) = "Failed to save state: offline" ∧
  error (this_state w') = error (this_state w) ∧
  (isInitializing (this_state w) = false →
   error (this_state w) ≠ "" →
   body (render no_props (this_state w')) = ShowError (error (this_state w))).
Proof.
  intros w0 w w'. split; [ reflexivity | ]. split; [ reflexivity | ].
  split; [ reflexivity | ].
  apply (success_keeps_the_error scripted all_services Save w no_props); reflexivity.
Defined.

Lemma rejection_is_shown_until_cleared_witness :
  let w := {| this_state := set_isInitializing false
                              (initial_state "2024-05-01T10:00:00.000Z");
              this_fields := initial_fields;
              host := rejecting "offline"; calls := [] |} in
  let w1 := (run scripted all_services Clear w).2 in
  let w2 := (@clearError Script w1).2 in
  pluginState all_services = true ∧
  service_rejection scripted Clear w = Some "offline" ∧
  isInitializing (this_state w) = false ∧
  body (render no_props (this_state w1)) = ShowError (failure_text Clear +:+ "offline") ∧
  body (render no_props (this_state w2))
    = ShowContent (renderContent no_props (this_state w2)) ∧
  testData (this_state w2) = testData (this_state w) ∧
  saveCount (this_state w2) = saveCount (this_state w) ∧
  restoreCount (this_state w2) = restoreCount (this_state w).
Proof.
  intros w w1 w2. split; [ reflexivity | ]. split; [ reflexivity | ].
  split; [ reflexivity | ].
  apply (rejection_is_shown_until_cleared scripted all_services Clear w "offline"
           no_props); reflexivity.
Defined.


Lemma increment_then_decrement_witness :
  let w := new_component scripted (accepting None) in
  let resolved := {| dispatched := []; settled := Resolved tt |} in
  let rejected := {| dispatched := []; settled := Rejected "offline" |} in
  let between := [AutoSaveSettles rejected] in
  let after := [Notify {| inv_callback := SaveHook; inv_arg := "{}" |};
                AutoSaveSettles resolved] in
  let w1 := (handle scripted all_services Increment w).2 in
  let w2 := perform_all scripted all_services
              (between ++ Change Decrement :: after) w1 in
  isSafeInteger (counter (testData (this_state w))) = true ∧
  forallb happens_meanwhile between = true ∧
  forallb happens_meanwhile after = true ∧
  counter (testData (this_state w1)) = counter (testData (this_state w)) + 1 ∧
  counter (testData (this_state w2)) = counter (testData (this_state w)) ∧
  textInput (testData (this_state w2)) = textInput (testData (this_state w)) ∧
  checkboxValue (testData (this_state w2)) = checkboxValue (testData (this_state w)) ∧
  selectValue (testData (this_state w2)) = selectValue (testData (this_state w)).
Proof.
  intros w resolved rejected between after w1 w2.
  split; [ reflexivity | ]. split; [ reflexivity | ]. split; [ reflexivity | ].
  apply (increment_then_decrement scripted all_services w between after);
    reflexivity.
Defined.

(** From 2^53 the two presses do not bring the counter back: "+" leaves
    it at 2^53, and "-" then takes it to 2^53 - 1. *)
Example increment_then_decrement_at_2_53 :
  let w := {| this_state :=
                set_testData
                  {| counter := 2 ^ 53; textInput := ""; checkboxValue := false;
                     selectValue := "option1"; timestamp := "" |}
                  (initial_state "2024-05-01T10:00:00.000Z");
              this_fields := initial_fields;
              host := accepting None; calls := [] |} in
  let w1 := (handle scripted all_services Increment w).2 in
  let w2 := (handle scripted all_services Decrement w1).2 in
  isSafeInteger (counter (testData (this_state w))) = false ∧
  counter (testData (this_state w1)) = 2 ^ 53 ∧
  counter (testData (this_state w2)) = 2 ^ 53 - 1.
Proof. by vm_compute. Qed.

Lemma overlapping_auto_saves_witness :
  let w := new_component scripted (accepting None) in
  let answer := {| dispatched := [{| inv_callback := SaveHook; inv_arg := "{}" |}];
                   settled := Resolved tt |} in
  let w1 := (handle scripted all_services Increment w).2 in
  let w2 := (handle scripted all_services (TextInput "a") w1).2 in
  let w3 := (saveState_resumed scripted answer w2).2 in
  let w4 := (saveState_resumed scripted answer w3).2 in
  pluginState all_services = true ∧
  settled answer = Resolved tt ∧
  (∃ s1 s2, calls w2 = calls w ++ [SaveState s1; SaveState s2] ∧
            o_saveCount s1 = Some (plus_1 (saveCount (this_state w))) ∧
            o_saveCount s2 = Some (plus_1 (saveCount (this_state w))) ∧
            o_testData s1 = Some (testData (this_state w1)) ∧
            o_testData s2 = Some (testData (this_state w2))) ∧
  saveCount (this_state w2) = saveCount (this_state w) ∧
  saveCount (this_state w4) = plus_1 (plus_1 (saveCount (this_state w))) ∧
  testData (this_state w4) = testData (this_state w2).
Proof.
  intros w answer w1 w2 w3 w4. split; [ reflexivity | ]. split; [ reflexivity | ].
  apply (overlapping_auto_saves scripted all_services Increment (TextInput "a") w
           answer answer); reflexivity.
Defined.

Lemma mount_reports_a_rejected_restore_witness :
  let ops := refusing "offline" in
  let w := new_component ops tt in
  pluginState all_services = true ∧
  (∀ c h, (h_configure ops c h).1 = Val tt) ∧
  (∀ h, settled (h_getState ops h).1 = Rejected "offline") ∧
  ∃ w', componentDidMount ops all_services w = (Val tt, w') ∧
        error (this_state w') = "Failed to restore state: " +:+ "offline" ∧
        body (render no_props (this_state w'))
          = ShowError ("Failed to restore state: " +:+ "offline") ∧
        (∃ t, last (debugLogs (this_state w')) =
              Some (logEntry t "Component initialized successfully")) ∧
        isInitializing (this_state w') = false ∧
        isLoading (this_state w') = false ∧
        isStateConfigured (this_state w') = true ∧
        testData (this_state w') = testData (this_state w) ∧
        saveCount (this_state w') = saveCount (this_state w) ∧
        restoreCount (this_state w') = restoreCount (this_state w).
Proof.
  intros ops w. split; [ reflexivity | ]. split; [ reflexivity | ].
  split; [ reflexivity | ].
  apply (mount_reports_a_rejected_restore ops all_services w "offline" no_props);
    reflexivity.
Defined.

Lemma mount_without_plugin_state_witness :
  let w := new_component scripted (accepting None) in
  pluginState no_plugin_state = false ∧
  ∃ w', componentDidMount scripted no_plugin_state w = (Val tt, w') ∧
        error (this_state w') = "Failed to initialize plugin state test" ∧
        (∃ t, last (debugLogs (this_state w')) =
              Some (logEntry t
                "Initialization failed: Error: Plugin state service not available")) ∧
        isStateConfigured (this_state w') = isStateConfigured (this_state w) ∧
        testData (this_state w') = testData (this_state w) ∧
        saveCount (this_state w') = saveCount (this_state w) ∧
        restoreCount (this_state w') = restoreCount (this_state w) ∧
        calls w' = calls w ++ initialize_calls no_plugin_state ∧
        saveStateUnsubscribe (this_fields w') = saveStateUnsubscribe (this_fields w) ∧
        restoreStateUnsubscribe (this_fields w')
          = restoreStateUnsubscribe (this_fields w) ∧
        clearStateUnsubscribe (this_fields w') = clearStateUnsubscribe (this_fields w).
Proof.
  intros w. split; [ reflexivity | ].
  apply (mount_without_plugin_state scripted no_plugin_state w). reflexivity.
Defined.

Lemma mount_with_refused_configuration_witness :
  let ops := in_memory (Thrown "ConfigurationError: maxStateSize") in
  let w := new_component ops None in
  pluginState all_services = true ∧
  (∀ c h, (h_configure ops c h).1 = Thrown "ConfigurationError: maxStateSize") ∧
  ∃ w', componentDidMount ops all_services w = (Val tt, w') ∧
        (∃ now, calls w' = calls w ++ initialize_calls all_services ++
                           [Configure (consumer_config now)]) ∧
        error (this_state w') = "Failed to initialize plugin state test" ∧
        (∃ t, last (debugLogs (this_state w')) =
              Some (logEntry t ("Initialization failed: " +:+
                                "ConfigurationError: maxStateSize"))) ∧
        isStateConfigured (this_state w') = isStateConfigured (this_state w) ∧
        saveStateUnsubscribe (this_fields w') = saveStateUnsubscribe (this_fields w) ∧
        restoreStateUnsubscribe (this_fields w')
          = restoreStateUnsubscribe (this_fields w) ∧
        clearStateUnsubscribe (this_fields w') = clearStateUnsubscribe (this_fields w).
Proof.
  intros ops w. split; [ reflexivity | ]. split; [ reflexivity | ].
  apply (mount_with_refused_configuration ops all_services w
           "ConfigurationError: maxStateSize"); reflexivity.
Defined.


Lemma hook_log_is_bounded_witness :
  let w := new_component scripted (accepting None) in
  let json_text := "{}" in
  let w' := (invoke scripted {| inv_callback := SaveHook; inv_arg := json_text |} w).2 in
  let t := (h_toLocaleTimeString scripted (host w)).1 in
  let prefix := "State saved: " in
  (SaveHook = SaveHook ∨ SaveHook = RestoreHook) ∧
  is_ascii_text json_text ∧
  ∃ shown rest,
    last (debugLogs (this_state w')) = Some (logEntry t (prefix +:+ shown +:+ "...")) ∧
    json_text = shown +:+ rest ∧
    String.length shown = Nat.min 100 (String.length json_text) ∧
    (String.length (prefix +:+ shown +:+ "...") ≤ 119)%nat.
Proof.
  intros w json_text w' t prefix.
  assert (is_ascii_text json_text) as Hascii
    by (repeat constructor; simpl; lia).
  split; [ by left | ]. split; [ exact Hascii | ].
  apply (hook_log_is_bounded scripted SaveHook json_text w); [ by left | exact Hascii ].
Defined.

End ConsumerPathsWitnesses.
